(** * Set-Transformer building blocks ([layers.py]): a shallow embedding

    The Python module defines [LinearNet], [Attention], [MAB], [PMA], [ISAB]
    and [IPAB] on top of the PyTorch tensor runtime.  Tensors are modelled
    by their shape together with a symbolic record of the operations that
    produced them; every runtime operation checks shapes the way PyTorch
    does and raises the corresponding Python exception.  Module objects and
    learnable parameters carry an object identity drawn from an allocation
    counter, so that two uses of one module can be told apart from uses of
    two equal-looking modules. *)

From Stdlib Require Import String ZArith QArith Bool Lia List.
Import ListNotations.
Close Scope Q_scope.
Local Open Scope nat_scope.

(* ------------------------------------------------------------------ *)
(** * Python exceptions and the two effects of the program *)

Inductive exn : Type :=
| AssertionError
| TypeError
| ValueError
| IndexError
| RuntimeError
| ZeroDivisionError.

Inductive result (A : Type) : Type :=
| Ok (a : A)
| Raise (e : exn).
Arguments Ok {A} a.
Arguments Raise {A} e.

Definition bind {A B} (m : result A) (k : A -> result B) : result B :=
  match m with
  | Ok a => k a
  | Raise e => Raise e
  end.

Declare Scope py_scope.
Delimit Scope py_scope with py.
Notation "x <- m ;; k" := (bind m (fun x => k))
  (at level 61, m at next level, right associativity) : py_scope.
Notation "' pat <- m ;; k" := (bind m (fun x => match x with pat => k end))
  (at level 61, pat pattern, m at next level, right associativity) : py_scope.
Local Open Scope py_scope.

Definition is_ok {A} (m : result A) : bool :=
  match m with Ok _ => true | Raise _ => false end.

(** [assert c] *)
Definition py_assert (c : bool) : result unit :=
  if c then Ok tt else Raise AssertionError.

(** [a % b] on Python integers: the sign follows the divisor, and a zero
    divisor raises. *)
Definition py_mod (a b : Z) : result Z :=
  if (b =? 0)%Z then Raise ZeroDivisionError else Ok (a mod b)%Z.

(** [range(n)] for a Python integer [n]. *)
Definition range (n : Z) : list nat := seq 0 (Z.to_nat n).

(** [for i in range(...): x = body(i, x)] *)
Fixpoint for_each {X} (idx : list nat) (body : nat -> X -> result X) (x : X)
  : result X :=
  match idx with
  | [] => Ok x
  | i :: rest => x' <- body i x ;; for_each rest body x'
  end.

(** [l[i]] for a non-negative index. *)
Definition getitem {A} (l : list A) (i : nat) : result A :=
  match nth_error l i with
  | Some a => Ok a
  | None => Raise IndexError
  end.

(** Object construction: computations that may raise and that draw fresh
    object identities from a counter. *)
Definition ctor (A : Type) : Type := nat -> result (A * nat).

Definition cret {A} (a : A) : ctor A := fun n => Ok (a, n).

Definition cbind {A B} (m : ctor A) (k : A -> ctor B) : ctor B :=
  fun n => match m n with
           | Ok (a, n') => k a n'
           | Raise e => Raise e
           end.

Definition lift {A} (m : result A) : ctor A :=
  fun n => match m with Ok a => Ok (a, n) | Raise e => Raise e end.

Definition fresh : ctor nat := fun n => Ok (n, S n).

Notation "x <~ m ;; k" := (cbind m (fun x => k))
  (at level 61, m at next level, right associativity) : py_scope.

Fixpoint cfor_each {X} (idx : list nat) (body : nat -> X -> ctor X) (x : X)
  : ctor X :=
  match idx with
  | [] => cret x
  | i :: rest => x' <~ body i x ;; cfor_each rest body x'
  end.

(* ------------------------------------------------------------------ *)
(** * Tensors *)

(** The record of how a tensor was computed.  Learnable modules are named
    by their object identity. *)
Inductive expr : Type :=
| EInput (name : string)
| EParam (id : nat)
| ECall (fn : string) (x : expr)
| ELinear (id : nat) (x : expr)
| ELeakyRelu (negative_slope : Q) (x : expr)
| EDropout (p : Q) (x : expr)
| ELayerNorm (id : nat) (x : expr)
| EMultiheadAttention (id : nat) (q k v : expr)
| EAdd (a b : expr)
| EMatmul (a b : expr)
| ETranspose (dim0 dim1 : nat) (x : expr)
| EDivSqrt (x : expr) (d : nat)
| ESoftmax (dim : nat) (x : expr)
| ERepeat (sizes : list nat) (x : expr)
| EUnsqueeze (dim : nat) (x : expr)
| ESqueeze (dim : nat) (x : expr).

Record tensor : Type := Tensor { shape : list nat; val : expr }.

Definition ndim (t : tensor) : nat := length (shape t).

Definition list_eqb (a b : list nat) : bool :=
  if list_eq_dec Nat.eq_dec a b then true else false.

Fixpoint list_set (l : list nat) (i : nat) (v : nat) : list nat :=
  match l, i with
  | [], _ => []
  | _ :: t, O => v :: t
  | h :: t, S i' => h :: list_set t i' v
  end.

Definition numel (s : list nat) : nat := fold_right Nat.mul 1 s.

(** Resolution of a possibly negative dimension index against [n]
    dimensions. *)
Definition wrap_dim (n : nat) (d : Z) : result nat :=
  if ((- Z.of_nat n <=? d) && (d <? Z.of_nat n))%Z
  then Ok (Z.to_nat (if (d <? 0)%Z then d + Z.of_nat n else d)%Z)
  else Raise IndexError.

(** Broadcasting of two shapes, aligned at the trailing dimension. *)
Fixpoint broadcast_rev (a b : list nat) : result (list nat) :=
  match a, b with
  | [], _ => Ok b
  | _, [] => Ok a
  | x :: a', y :: b' =>
      r <- broadcast_rev a' b' ;;
      if x =? y then Ok (x :: r)
      else if x =? 1 then Ok (y :: r)
      else if y =? 1 then Ok (x :: r)
      else Raise RuntimeError
  end.

Definition broadcast_shapes (a b : list nat) : result (list nat) :=
  r <- broadcast_rev (rev a) (rev b) ;; Ok (rev r).

Module TensorOps.

(** [t.size(d)] *)
Definition size (t : tensor) (d : Z) : result nat :=
  i <- wrap_dim (ndim t) d ;; getitem (shape t) i.

(** [a + b] *)
Definition add (a b : tensor) : result tensor :=
  s <- broadcast_shapes (shape a) (shape b) ;;
  Ok (Tensor s (EAdd (val a) (val b))).

(** [t.transpose(d0, d1)] *)
Definition transpose (t : tensor) (d0 d1 : Z) : result tensor :=
  let n := Nat.max (ndim t) 1 in
  i <- wrap_dim n d0 ;;
  j <- wrap_dim n d1 ;;
  let s := shape t in
  Ok (Tensor (list_set (list_set s i (nth j s 0)) j (nth i s 0))
             (ETranspose i j (val t))).

(** [t / math.sqrt(d)] *)
Definition div_sqrt (t : tensor) (d : nat) : result tensor :=
  Ok (Tensor (shape t) (EDivSqrt (val t) d)).

(** [t.repeat(s0, s1, ...)] *)
Definition repeat (t : tensor) (sizes : list nat) : result tensor :=
  if length sizes <? ndim t then Raise RuntimeError
  else
    let padded := List.repeat 1 (length sizes - ndim t) ++ shape t in
    Ok (Tensor (map (fun p => fst p * snd p) (combine sizes padded))
               (ERepeat sizes (val t))).

(** [t.unsqueeze(d)] *)
Definition unsqueeze (t : tensor) (d : Z) : result tensor :=
  i <- wrap_dim (S (ndim t)) d ;;
  Ok (Tensor (firstn i (shape t) ++ 1 :: skipn i (shape t))
             (EUnsqueeze i (val t))).

(** [t.squeeze(d)]: the dimension is dropped only when its size is 1. *)
Definition squeeze (t : tensor) (d : Z) : result tensor :=
  i <- wrap_dim (Nat.max (ndim t) 1) d ;;
  let s := shape t in
  Ok (Tensor (if nth i s 0 =? 1 then firstn i s ++ skipn (S i) s else s)
             (ESqueeze i (val t))).

End TensorOps.

Module torch.

(** [torch.matmul(a, b)]: a 1-D operand is promoted to a matrix and the
    added dimension removed afterwards; leading dimensions broadcast. *)
Definition matmul (a b : tensor) : result tensor :=
  match shape a, shape b with
  | [], _ | _, [] => Raise RuntimeError
  | _, _ =>
      let va := ndim a =? 1 in
      let vb := ndim b =? 1 in
      let sa := if va then 1 :: shape a else shape a in
      let sb := if vb then shape b ++ [1] else shape b in
      let ba := firstn (length sa - 2) sa in
      let bb := firstn (length sb - 2) sb in
      let n := nth (length sa - 2) sa 0 in
      let k := nth (length sa - 1) sa 0 in
      let k' := nth (length sb - 2) sb 0 in
      let p := nth (length sb - 1) sb 0 in
      if k =? k' then
        batch <- broadcast_shapes ba bb ;;
        Ok (Tensor (batch ++ (if va then [] else [n])
                          ++ (if vb then [] else [p]))
                   (EMatmul (val a) (val b)))
      else Raise RuntimeError
  end.

(** [torch.softmax(input, dim)]: [dim] is a required argument; a call
    that leaves it out does not match any signature of the function. *)
Definition softmax (input : tensor) (dim : option Z) : result tensor :=
  match dim with
  | None => Raise TypeError
  | Some d =>
      i <- wrap_dim (Nat.max (ndim input) 1) d ;;
      Ok (Tensor (shape input) (ESoftmax i (val input)))
  end.

(** [torch.empty(s0, s1, ...)] and [torch.randn(s0, s1, ...)]: a fresh tensor. *)
Definition empty (sizes : list Z) : ctor tensor :=
  if forallb (fun z => 0 <=? z)%Z sizes
  then id <~ fresh ;; cret (Tensor (map Z.to_nat sizes) (EParam id))
  else lift (Raise RuntimeError).

Definition randn (sizes : list Z) : ctor tensor := empty sizes.

End torch.

(* ------------------------------------------------------------------ *)
(** * The [torch.nn] modules the program instantiates *)

Module F.

(** [F.leaky_relu(x, negative_slope=a)] *)
Definition leaky_relu (x : tensor) (negative_slope : Q) : result tensor :=
  Ok (Tensor (shape x) (ELeakyRelu negative_slope (val x))).

End F.

(** The modules are the external runtime's, modelled by their documented
    contracts: what their constructors validate, which shapes their
    forward passes accept, and the shape they return.  Arithmetic on
    tensor elements is not modelled; the operation is recorded in [val]. *)
Module nn.

(** [nn.Linear(in_features, out_features)]: maps the trailing dimension. *)
Module Linear.
Record t : Type := Make { id : nat; in_features : nat; out_features : nat }.

Definition init (in_features out_features : Z) : ctor t :=
  if ((in_features <? 0) || (out_features <? 0))%Z
  then lift (Raise RuntimeError)
  else i <~ fresh ;;
       cret (Make i (Z.to_nat in_features) (Z.to_nat out_features)).

Definition forward (self : t) (x : tensor) : result tensor :=
  match shape x with
  | [] => Raise RuntimeError
  | _ =>
      if last (shape x) 0 =? in_features self
      then Ok (Tensor (removelast (shape x) ++ [out_features self])
                      (ELinear (id self) (val x)))
      else Raise RuntimeError
  end.
End Linear.

(** [nn.Dropout(p)]: the probability must lie in [0, 1]. *)
Module Dropout.
Record t : Type := Make { p : Q }.

Definition init (p : Q) : result t :=
  if Qle_bool 0 p && Qle_bool p 1 then Ok (Make p) else Raise ValueError.

Definition forward (self : t) (x : tensor) : result tensor :=
  Ok (Tensor (shape x) (EDropout (p self) (val x))).
End Dropout.

(** [nn.LayerNorm(normalized_shape)] over the trailing dimension. *)
Module LayerNorm.
Record t : Type := Make { id : nat; normalized_shape : nat }.

Definition init (normalized_shape : Z) : ctor t :=
  if (normalized_shape <? 0)%Z then lift (Raise RuntimeError)
  else i <~ fresh ;; cret (Make i (Z.to_nat normalized_shape)).

Definition forward (self : t) (x : tensor) : result tensor :=
  match shape x with
  | [] => Raise RuntimeError
  | _ =>
      if last (shape x) 0 =? normalized_shape self
      then Ok (Tensor (shape x) (ELayerNorm (id self) (val x)))
      else Raise RuntimeError
  end.
End LayerNorm.

(** [nn.MultiheadAttention(embed_dim, num_heads, batch_first)].  The
    constructor wants positive arguments and a head dimension that divides
    evenly.  The forward pass moves a batched (3-D) query, key and value
    to sequence-first layout when [batch_first] is set, checks that query,
    key and value are all batched or all unbatched (2-D), that the query
    has the embedding dimension, that key and value have one shape, and
    projects and reshapes the key by the batch size of the query. *)
Module MultiheadAttention.
Record t : Type :=
  Make { id : nat; embed_dim : nat; num_heads : nat; batch_first : bool }.

Definition init (embed_dim num_heads : Z) (batch_first : bool) : ctor t :=
  if ((embed_dim <=? 0) || (num_heads <=? 0))%Z
  then lift (Raise ValueError)
  else
    _ <~ lift (py_assert ((embed_dim / num_heads) * num_heads =? embed_dim)%Z) ;;
    i <~ fresh ;;
    cret (Make i (Z.to_nat embed_dim) (Z.to_nat num_heads) batch_first).

(** [forward(query, key, value, need_weights=False)]: the attention
    output has the shape of the query; the weights are [None]. *)
Definition forward (self : t) (query key value : tensor)
  : result (tensor * option tensor) :=
  let E := embed_dim self in
  let swap := batch_first self && (ndim query =? 3) in
  '(q, k, v) <-
    (if swap then
       q <- TensorOps.transpose query 1 0 ;;
       k <- TensorOps.transpose key 1 0 ;;
       v <- TensorOps.transpose value 1 0 ;;
       Ok (q, k, v)
     else Ok (query, key, value)) ;;
  is_batched <-
    (if ndim q =? 3 then
       _ <- py_assert ((ndim k =? 3) && (ndim v =? 3)) ;; Ok true
     else if ndim q =? 2 then
       _ <- py_assert ((ndim k =? 2) && (ndim v =? 2)) ;; Ok false
     else Raise AssertionError) ;;
  '(q, k, v) <-
    (if is_batched then Ok (q, k, v)
     else
       q <- TensorOps.unsqueeze q 1 ;;
       k <- TensorOps.unsqueeze k 1 ;;
       v <- TensorOps.unsqueeze v 1 ;;
       Ok (q, k, v)) ;;
  match shape q, shape k with
  | [tgt_len; bsz; e_q], [src_len; _; e_k] =>
      _ <- py_assert (e_q =? E) ;;
      _ <- py_assert (list_eqb (shape k) (shape v)) ;;
      if negb (e_k =? E) then Raise RuntimeError
      else if negb (numel (shape k) =? numel [src_len; bsz; E])
      then Raise RuntimeError
      else
        let attn :=
          Tensor [tgt_len; bsz; E]
            (EMultiheadAttention (id self) (val query) (val key) (val value)) in
        attn <- (if is_batched then Ok attn else TensorOps.squeeze attn 1) ;;
        attn <- (if swap then TensorOps.transpose attn 1 0 else Ok attn) ;;
        Ok (Tensor (shape attn)
              (EMultiheadAttention (id self) (val query) (val key) (val value)),
            None)
  | _, _ => Raise RuntimeError
  end.
End MultiheadAttention.

Module init.
(** [nn.init.xavier_uniform_(t)]: fan-in and fan-out need two
    dimensions. *)
Definition xavier_uniform_ (t : tensor) : result tensor :=
  if ndim t <? 2 then Raise ValueError else Ok t.
End init.

End nn.

(* ------------------------------------------------------------------ *)
(** * [layers.py] *)

(** A Python callable taking one tensor. *)
Definition callable : Type := tensor -> result tensor.

(** [torch.softmax] passed around as a function object and called with
  the tensor as its only argument. *)
Definition torch_softmax : callable := fun t => torch.softmax t None.

Module LinearNet.

Record t : Type :=
  Make { final_linear : bool;
         leaky_relu_alpha : Q;
         dropout : nn.Dropout.t;
         net : list nn.Linear.t }.

Definition default_leaky_relu_alpha : Q := (2 # 10)%Q.
Definition default_dropout_p : Q := 0%Q.

Definition init_body (layer_sizes : list Z) (i : nat) (net : list nn.Linear.t)
  : ctor (list nn.Linear.t) :=
  a <~ lift (getitem layer_sizes i) ;;
  b <~ lift (getitem layer_sizes (i + 1)) ;;
  linear <~ nn.Linear.init a b ;;
  cret (net ++ [linear]).

Definition init (layer_sizes : list Z) (leaky_relu_alpha dropout_p : Q)
           (final_linear : bool) : ctor t :=
  dropout <~ lift (nn.Dropout.init dropout_p) ;;
  net <~ cfor_each (range (Z.of_nat (length layer_sizes) - 1))
           (init_body layer_sizes) [] ;;
  cret (Make final_linear leaky_relu_alpha dropout net).

Definition forward_body (self : t) (i : nat) (x : tensor) : result tensor :=
  layer <- getitem (net self) i ;;
  x <- nn.Linear.forward layer x ;;
  x <- (if negb (Z.of_nat i =? Z.of_nat (length (net self)) - 1)%Z
           || negb (final_linear self)
        then F.leaky_relu x (leaky_relu_alpha self)
        else Ok x) ;;
  nn.Dropout.forward (dropout self) x.

Definition forward (self : t) (x : tensor) : result tensor :=
  for_each (range (Z.of_nat (length (net self)))) (forward_body self) x.

End LinearNet.

Module Attention.

Record t : Type := Make { activation_function : callable }.

Definition init (activation_function : option callable) : t :=
  Make (match activation_function with
        | Some f => f
        | None => torch_softmax
        end).

Definition forward (self : t) (Q K V : tensor) : result tensor :=
  d <- TensorOps.size Q (-1) ;;
  Kt <- TensorOps.transpose K (-2) (-1) ;;
  QK <- torch.matmul Q Kt ;;
  logits <- TensorOps.div_sqrt QK d ;;
  logits <- activation_function self logits ;;
  torch.matmul logits V.

End Attention.

Module MAB.

Record t : Type :=
  Make { activation_function : callable;
         attention : nn.MultiheadAttention.t;
         layer_norm : option nn.LayerNorm.t;
         feedforward : LinearNet.t;
         dropout : nn.Dropout.t }.

(** [[embed_dim] + ff_layers + [embed_dim]]: list concatenation is
    defined on lists only. *)
Definition widths (embed_dim : Z) (ff_layers : option (list Z))
  : result (list Z) :=
  match ff_layers with
  | Some l => Ok (([embed_dim] ++ l) ++ [embed_dim])
  | None => Raise TypeError
  end.

Definition init (embed_dim num_heads : Z) (ff_layers : option (list Z))
           (final_linear : bool) (activation_function : callable)
           (layer_norm : bool) (dropout : Q) : ctor t :=
  r <~ lift (py_mod embed_dim num_heads) ;;
  _ <~ lift (py_assert (r =? 0)%Z) ;;
  attention <~ nn.MultiheadAttention.init embed_dim num_heads true ;;
  layer_norm <~ (if layer_norm
                 then ln <~ nn.LayerNorm.init embed_dim ;; cret (Some ln)
                 else cret None) ;;
  ws <~ lift (widths embed_dim ff_layers) ;;
  feedforward <~ LinearNet.init ws LinearNet.default_leaky_relu_alpha
                   LinearNet.default_dropout_p final_linear ;;
  dropout <~ lift (nn.Dropout.init dropout) ;;
  cret (Make activation_function attention layer_norm feedforward dropout).

(** Keyword arguments forwarded as [**mab_args]; an absent key takes the
    default of [MAB.__init__], and [num_heads] has none. *)
Record kwargs : Type :=
  Kwargs { kw_num_heads : option Z;
           kw_ff_layers : option (list Z);
           kw_final_linear : option bool;
           kw_activation_function : option callable;
           kw_layer_norm : option bool;
           kw_dropout : option Q }.

Definition default {A} (o : option A) (d : A) : A :=
  match o with Some a => a | None => d end.

Definition init_kw (embed_dim : Z) (kw : kwargs) : ctor t :=
  match kw_num_heads kw with
  | None => lift (Raise TypeError)
  | Some num_heads =>
      init embed_dim num_heads (kw_ff_layers kw)
        (default (kw_final_linear kw) true)
        (default (kw_activation_function kw) torch_softmax)
        (default (kw_layer_norm kw) false)
        (default (kw_dropout kw) (1 # 10)%Q)
  end.

Definition apply_layer_norm (self : t) (x : tensor) : result tensor :=
  match layer_norm self with
  | Some ln => nn.LayerNorm.forward ln x
  | None => Ok x
  end.

Definition forward (self : t) (X Y : tensor) : result tensor :=
  r <- nn.MultiheadAttention.forward (attention self) X Y Y ;;
  let attention := fst r in
  H <- TensorOps.add X attention ;;
  H <- apply_layer_norm self H ;;
  H <- nn.Dropout.forward (dropout self) H ;;
  ff <- LinearNet.forward (feedforward self) H ;;
  mab_out <- TensorOps.add H ff ;;
  mab_out <- apply_layer_norm self mab_out ;;
  mab_out <- nn.Dropout.forward (dropout self) mab_out ;;
  Ok mab_out.

End MAB.

Module PMA.

Record t : Type := Make { seed_count : Z; mab : MAB.t; S : tensor }.

Definition init (embed_dims seed_count : Z) (mab_args : MAB.kwargs) : ctor t :=
  mab <~ MAB.init_kw embed_dims mab_args ;;
  S <~ torch.empty [1%Z; seed_count; embed_dims] ;;
  S <~ lift (nn.init.xavier_uniform_ S) ;;
  cret (Make seed_count mab S).

Definition forward (self : t) (X : tensor) : result tensor :=
  b <- TensorOps.size X 0 ;;
  seeds <- TensorOps.repeat (S self) [b; 1; 1] ;;
  MAB.forward (mab self) seeds X.

End PMA.

Module ISAB.

Record t : Type := Make { m : Z; mab1 : MAB.t; mab2 : MAB.t; I : tensor }.

Definition init (m_induce embed_dim : Z) (mab_args : MAB.kwargs) : ctor t :=
  mab1 <~ MAB.init_kw embed_dim mab_args ;;
  mab2 <~ MAB.init_kw embed_dim mab_args ;;
  I <~ torch.randn [m_induce; embed_dim] ;;
  cret (Make m_induce mab1 mab2 I).

Definition forward (self : t) (X : tensor) : result tensor :=
  H <- MAB.forward (mab1 self) (I self) X ;;
  MAB.forward (mab2 self) X H.

End ISAB.

Module IPAB.

Record t : Type := Make { embed_dim : Z; mab1 : MAB.t; mab2 : MAB.t }.

Definition init (embed_dim : Z) (mab_args : MAB.kwargs) : ctor t :=
  mab1 <~ MAB.init_kw embed_dim mab_args ;;
  mab2 <~ MAB.init_kw embed_dim mab_args ;;
  cret (Make embed_dim mab1 mab2).

Definition forward (self : t) (X Z : tensor) : result (tensor * tensor) :=
  Zu <- TensorOps.unsqueeze Z 1 ;;
  Z <- MAB.forward (mab1 self) Zu X ;;
  out <- MAB.forward (mab2 self) X Z ;;
  Zs <- TensorOps.squeeze Z 1 ;;
  Ok (out, Zs).

(** Repeated calls with the same [X], each fed the latent vector the
    previous one returned. *)
Fixpoint chain (self : t) (X Z : tensor) (calls : nat)
  : result (list tensor * tensor) :=
  match calls with
  | O => Ok ([], Z)
  | Datatypes.S n =>
      r <- forward self X Z ;;
      rest <- chain self X (snd r) n ;;
      Ok (fst r :: fst rest, snd rest)
  end.

End IPAB.

(* ------------------------------------------------------------------ *)
(** * Specification-side definitions *)

(** The Dense Stack as the specification describes it: every transform in
    order, the nonlinearity after every transform except the last one when
    [final_linear] is set, and dropout after that. *)
Fixpoint dense_stack (layers : list nn.Linear.t) (alpha : Q)
         (drop : nn.Dropout.t) (final_linear : bool) (x : tensor)
  : result tensor :=
  match layers with
  | [] => Ok x
  | l :: rest =>
      x <- nn.Linear.forward l x ;;
      x <- (match rest with
            | [] => if final_linear then Ok x else F.leaky_relu x alpha
            | _ :: _ => F.leaky_relu x alpha
            end) ;;
      x <- nn.Dropout.forward drop x ;;
      dense_stack rest alpha drop final_linear x
  end.

(** The primitive operations a Dense Stack applies to its input. *)
Inductive op : Type :=
| OpLinear (id : nat)
| OpLeakyRelu (negative_slope : Q)
| OpDropout (p : Q).

Definition apply_op (e : expr) (o : op) : expr :=
  match o with
  | OpLinear i => ELinear i e
  | OpLeakyRelu a => ELeakyRelu a e
  | OpDropout p => EDropout p e
  end.

Definition apply_ops (ops : list op) (e : expr) : expr :=
  fold_left apply_op ops e.

(** The sequence of operations of a Dense Stack, first applied first. *)
Fixpoint stack_ops (layers : list nn.Linear.t) (alpha p : Q)
         (final_linear : bool) : list op :=
  match layers with
  | [] => []
  | l :: rest =>
      OpLinear (nn.Linear.id l)
        :: (match rest with
            | [] => if final_linear then [] else [OpLeakyRelu alpha]
            | _ :: _ => [OpLeakyRelu alpha]
            end)
        ++ OpDropout p :: stack_ops rest alpha p final_linear
  end.

Definition is_linear (o : op) : bool :=
  match o with OpLinear _ => true | _ => false end.
Definition is_leaky_relu (o : op) : bool :=
  match o with OpLeakyRelu _ => true | _ => false end.
Definition is_dropout (o : op) : bool :=
  match o with OpDropout _ => true | _ => false end.

(** Every affine transform is followed by dropout, with at most the
    nonlinearity in between, and nothing else occurs. *)
Fixpoint dropout_after_each_linear (ops : list op) : bool :=
  match ops with
  | [] => true
  | OpLinear _ :: OpDropout _ :: rest => dropout_after_each_linear rest
  | OpLinear _ :: OpLeakyRelu _ :: OpDropout _ :: rest =>
      dropout_after_each_linear rest
  | _ => false
  end.

(** The layers [LinearNet.__init__] builds from a width list, the first one
    taking the identity [n]. *)
Fixpoint layers_of (ws : list Z) (n : nat) : list nn.Linear.t :=
  match ws with
  | a :: rest =>
      match rest with
      | b :: _ => nn.Linear.Make n (Z.to_nat a) (Z.to_nat b)
                    :: layers_of rest (S n)
      | [] => []
      end
  | [] => []
  end.

Definition widths_ok (ws : list Z) : bool :=
  match ws with
  | [] | [_] => true
  | _ => forallb (fun z => 0 <=? z)%Z ws
  end.

(** Consecutive layers agree on the width between them, from [d_in] to
    [d_out]. *)
Fixpoint chained (layers : list nn.Linear.t) (d_in d_out : nat) : Prop :=
  match layers with
  | [] => d_in = d_out
  | l :: rest =>
      nn.Linear.in_features l = d_in
      /\ chained rest (nn.Linear.out_features l) d_out
  end.

(** What [MAB.__init__] builds when it returns, the attention sub-layer
    taking the identity [n]. *)
Definition built_MAB (embed_dim num_heads : Z) (ff_layers : list Z)
           (final_linear : bool) (activation_function : callable)
           (layer_norm : bool) (dropout : Q) (n : nat) : MAB.t :=
  MAB.Make activation_function
    (nn.MultiheadAttention.Make n (Z.to_nat embed_dim) (Z.to_nat num_heads) true)
    (if layer_norm then Some (nn.LayerNorm.Make (S n) (Z.to_nat embed_dim))
     else None)
    (LinearNet.Make final_linear LinearNet.default_leaky_relu_alpha
       (nn.Dropout.Make LinearNet.default_dropout_p)
       (layers_of (([embed_dim] ++ ff_layers) ++ [embed_dim])
          (if layer_norm then S (S n) else S n)))
    (nn.Dropout.Make dropout).

(** The sub-modules of an [MAB] agree on the embedding dimension [E]. *)
Definition MAB_wf (E : nat) (self : MAB.t) : Prop :=
  nn.MultiheadAttention.embed_dim (MAB.attention self) = E
  /\ nn.MultiheadAttention.batch_first (MAB.attention self) = true
  /\ (forall ln, MAB.layer_norm self = Some ln ->
                 nn.LayerNorm.normalized_shape ln = E)
  /\ chained (LinearNet.net (MAB.feedforward self)) E E.

(** The forward pass of an [MAB] as the specification lists it:
    attention with query [X] and key and value [Y]; residual, optional
    normalization, dropout; feed-forward residual, optional
    normalization, dropout. *)
Definition spec_norm (ln : option nn.LayerNorm.t) (e : expr) : expr :=
  match ln with
  | Some l => ELayerNorm (nn.LayerNorm.id l) e
  | None => e
  end.

Definition spec_feedforward (ff : LinearNet.t) (e : expr) : expr :=
  apply_ops (stack_ops (LinearNet.net ff) (LinearNet.leaky_relu_alpha ff)
               (nn.Dropout.p (LinearNet.dropout ff)) (LinearNet.final_linear ff))
    e.

Definition spec_MAB (self : MAB.t) (X Y : expr) : expr :=
  let p := nn.Dropout.p (MAB.dropout self) in
  let A := EMultiheadAttention
             (nn.MultiheadAttention.id (MAB.attention self)) X Y Y in
  let H := EDropout p (spec_norm (MAB.layer_norm self) (EAdd X A)) in
  EDropout p (spec_norm (MAB.layer_norm self)
                (EAdd H (spec_feedforward (MAB.feedforward self) H))).

(** Shapes the attention sub-layer of an [MAB] of dimension [E] accepts:
    a batched query with a batched key of the same batch size, or an
    unbatched query with an unbatched key. *)
Definition attendable (E : nat) (sx sy : list nat) : Prop :=
  (exists B L S, sx = [B; L; E] /\ sy = [B; S; E])
  \/ (exists L S, sx = [L; E] /\ sy = [S; E]).

(** The configuration of the module's own smoke test:
    [num_heads=2, ff_layers=[10,20,10]] on inputs of shape (16, 30, 10) and
    a latent vector of shape (16, 10). *)
Definition example_kwargs : MAB.kwargs :=
  MAB.Kwargs (Some 2%Z) (Some [10; 20; 10]%Z) None None None None.

Definition example_MAB (n : nat) : MAB.t :=
  built_MAB 10 2 [10; 20; 10]%Z true torch_softmax false (1 # 10)%Q n.

Definition example_X : tensor := Tensor [16; 30; 10] (EInput "X"%string).
Definition example_Z : tensor := Tensor [16; 10] (EInput "Z"%string).

Definition example_PMA : PMA.t :=
  PMA.Make 4 (example_MAB 0) (Tensor [1; 4; 10] (EParam 5)).

Definition example_ISAB : ISAB.t :=
  ISAB.Make 4 (example_MAB 0) (example_MAB 5) (Tensor [4; 10] (EParam 10)).

Definition example_IPAB : IPAB.t :=
  IPAB.Make 10 (example_MAB 0) (example_MAB 5).

(** The normalizer the specification names: softmax over the last axis. *)
Definition softmax_last_axis : callable :=
  fun t => torch.softmax t (Some (-1)%Z).

(** The identities of the learnable sub-modules an [MAB] holds: the
    attention sub-layer, the normalization when there is one, and the
    affine layers of the feed-forward stack. *)
Definition module_ids (self : MAB.t) : list nat :=
  nn.MultiheadAttention.id (MAB.attention self)
    :: (match MAB.layer_norm self with
        | Some ln => [nn.LayerNorm.id ln]
        | None => []
        end)
    ++ map nn.Linear.id (LinearNet.net (MAB.feedforward self)).

(* ------------------------------------------------------------------ *)
(** * Basic facts about the runtime model *)

Lemma list_eqb_refl a : list_eqb a a = true.
Proof. unfold list_eqb. destruct (list_eq_dec Nat.eq_dec a a); congruence. Qed.

Lemma list_eqb_eq a b : list_eqb a b = true <-> a = b.
Proof.
  unfold list_eqb. destruct (list_eq_dec Nat.eq_dec a b); split; congruence.
Qed.

Lemma range_of_nat n : range (Z.of_nat n) = seq 0 n.
Proof. unfold range. now rewrite Nat2Z.id. Qed.

Lemma last_snoc (l : list nat) d : last (l ++ [d]) 0 = d.
Proof. apply last_last. Qed.

Lemma Linear_forward_ok (l : nn.Linear.t) (x : tensor) lead :
  shape x = lead ++ [nn.Linear.in_features l] ->
  nn.Linear.forward l x
  = Ok (Tensor (lead ++ [nn.Linear.out_features l])
               (ELinear (nn.Linear.id l) (val x))).
Proof.
  intros Hs. unfold nn.Linear.forward. rewrite Hs.
  rewrite last_snoc, Nat.eqb_refl, removelast_last.
  destruct lead; reflexivity.
Qed.

Lemma Linear_forward_inv (l : nn.Linear.t) (x y : tensor) :
  nn.Linear.forward l x = Ok y ->
  val y = ELinear (nn.Linear.id l) (val x)
  /\ shape x = removelast (shape x) ++ [nn.Linear.in_features l]
  /\ shape y = removelast (shape x) ++ [nn.Linear.out_features l].
Proof.
  unfold nn.Linear.forward. intros H.
  destruct (shape x) as [|d s] eqn:Hs; [discriminate|].
  destruct (last (d :: s) 0 =? nn.Linear.in_features l) eqn:He;
    [|discriminate].
  apply Nat.eqb_eq in He. inversion H; subst; simpl val; simpl shape.
  repeat split. rewrite <- He.
  apply app_removelast_last. discriminate.
Qed.

Lemma broadcast_rev_same s : broadcast_rev s s = Ok s.
Proof.
  induction s as [|d s IH]; [reflexivity|].
  simpl. rewrite IH. simpl. now rewrite Nat.eqb_refl.
Qed.

Lemma broadcast_shapes_same s : broadcast_shapes s s = Ok s.
Proof.
  unfold broadcast_shapes. rewrite broadcast_rev_same. simpl.
  now rewrite rev_involutive.
Qed.

Lemma add_same_shape (a b : tensor) :
  shape a = shape b ->
  TensorOps.add a b = Ok (Tensor (shape a) (EAdd (val a) (val b))).
Proof.
  intros H. unfold TensorOps.add. rewrite <- H, broadcast_shapes_same.
  reflexivity.
Qed.

(* ------------------------------------------------------------------ *)
(** * LinearNet *)

Section LinearNetForward.

Variable self : LinearNet.t.


  (** The loop over indices, started at any position, does what the
      structural recursion over the remaining layers does. *)
Lemma forward_from_index (suf pre : list nn.Linear.t) (x : tensor) :
    LinearNet.net self = pre ++ suf ->
    for_each (seq (length pre) (length suf)) (LinearNet.forward_body self) x
    = dense_stack suf (LinearNet.leaky_relu_alpha self)
        (LinearNet.dropout self) (LinearNet.final_linear self) x.
Proof.
    revert pre x. induction suf as [|l rest IH]; intros pre x Hnet.
    - reflexivity.
    - cbn [length seq for_each dense_stack].
      unfold LinearNet.forward_body at 1. unfold getitem.
      rewrite Hnet, nth_error_app2, Nat.sub_diag by lia. cbn [nth_error bind].
      destruct (nn.Linear.forward l x) as [y|e]; [|reflexivity].
      cbn [bind].
      assert (Hlast : (Z.of_nat (length pre)
                       =? Z.of_nat (length (pre ++ l :: rest)) - 1)%Z
                      = match rest with [] => true | _ => false end).
      { rewrite length_app. cbn [length].
        destruct rest; cbn [length]; [apply Z.eqb_eq|apply Z.eqb_neq]; lia. }
      rewrite Hlast.
      specialize (IH (pre ++ [l])).
      rewrite length_app, Nat.add_1_r in IH.
      destruct rest as [|r rest'].
      + cbn [negb orb]. destruct (LinearNet.final_linear self); reflexivity.
      + cbn [negb orb F.leaky_relu bind nn.Dropout.forward].
        apply IH. rewrite <- app_assoc. exact Hnet.
Qed.

Lemma forward_dense_stack (x : tensor) :
    LinearNet.forward self x
    = dense_stack (LinearNet.net self) (LinearNet.leaky_relu_alpha self)
        (LinearNet.dropout self) (LinearNet.final_linear self) x.
Proof.
    unfold LinearNet.forward. rewrite range_of_nat.
    exact (forward_from_index (LinearNet.net self) [] x eq_refl).
Qed.

End LinearNetForward.

Lemma apply_ops_app ops1 ops2 e :
  apply_ops (ops1 ++ ops2) e = apply_ops ops2 (apply_ops ops1 e).
Proof. apply fold_left_app. Qed.

(** A run of the Dense Stack that returns has applied exactly the
    operations of [stack_ops] and changed only the trailing dimension. *)
Lemma dense_stack_val layers alpha drop fl :
  forall x out,
    dense_stack layers alpha drop fl x = Ok out ->
    val out = apply_ops (stack_ops layers alpha (nn.Dropout.p drop) fl) (val x).
Proof.
  induction layers as [|l rest IH]; intros x out H.
  - inversion H. reflexivity.
  - cbn [dense_stack] in H.
    destruct (nn.Linear.forward l x) as [y|e] eqn:Hl; [|discriminate].
    apply Linear_forward_inv in Hl. destruct Hl as (Hv & _ & _).
    cbn [bind] in H. cbn [stack_ops].
    destruct rest as [|r rest'].
    + destruct fl; cbn in H; inversion H; subst; cbn; now rewrite Hv.
    + cbn [F.leaky_relu nn.Dropout.forward bind] in H.
      apply IH in H. rewrite H. cbn [val]. rewrite Hv. reflexivity.
Qed.

(** A well-chained Dense Stack accepts every input whose trailing
    dimension is its first width. *)
Lemma dense_stack_ok layers alpha drop fl :
  forall d_in d_out lead x,
    chained layers d_in d_out ->
    shape x = lead ++ [d_in] ->
    dense_stack layers alpha drop fl x
    = Ok (Tensor (lead ++ [d_out])
            (apply_ops (stack_ops layers alpha (nn.Dropout.p drop) fl) (val x))).
Proof.
  induction layers as [|l rest IH]; intros d_in d_out lead x Hc Hs.
  - cbn in *. subst. rewrite <- Hs. now destruct x.
  - destruct Hc as [Hin Hc]. cbn [dense_stack].
    rewrite (Linear_forward_ok l x lead) by now rewrite Hin.
    cbn [bind stack_ops].
    destruct rest as [|r rest'].
    + cbn in Hc. subst d_out. destruct fl; reflexivity.
    + cbn [F.leaky_relu nn.Dropout.forward bind shape val].
      erewrite IH; [reflexivity|exact Hc|reflexivity].
Qed.

(** ** Construction *)

Lemma init_body_step (ws pre : list Z) a b rest acc n :
  ws = pre ++ a :: b :: rest ->
  LinearNet.init_body ws (length pre) acc n
  = if ((a <? 0) || (b <? 0))%Z then Raise RuntimeError
    else Ok (acc ++ [nn.Linear.Make n (Z.to_nat a) (Z.to_nat b)], S n).
Proof.
  intros Hws. unfold LinearNet.init_body, cbind, lift, getitem.
  rewrite Hws, nth_error_app2, Nat.sub_diag by lia. cbn [nth_error].
  rewrite nth_error_app2 by lia.
  replace (length pre + 1 - length pre) with 1 by lia. cbn [nth_error].
  unfold nn.Linear.init.
  destruct ((a <? 0) || (b <? 0))%Z; reflexivity.
Qed.

Lemma init_layers_from (ws : list Z) :
  forall suf pre acc n,
    ws = pre ++ suf ->
    cfor_each (seq (length pre) (length suf - 1)) (LinearNet.init_body ws)
      acc n
    = if widths_ok suf
      then Ok (acc ++ layers_of suf n, n + (length suf - 1))
      else Raise RuntimeError.
Proof.
  induction suf as [|a suf IH]; intros pre acc n Hws.
  - cbn. unfold cret. now rewrite app_nil_r, Nat.add_0_r.
  - destruct suf as [|b rest].
    + cbn. unfold cret. now rewrite app_nil_r, Nat.add_0_r.
    + replace (length (a :: b :: rest) - 1) with (S (length (b :: rest) - 1))
        by (cbn [length]; lia).
      cbn [seq cfor_each]. unfold cbind.
      rewrite (init_body_step ws pre a b rest acc n Hws).
      specialize (IH (pre ++ [a])
                    (acc ++ [nn.Linear.Make n (Z.to_nat a) (Z.to_nat b)]) (S n)).
      rewrite length_app, Nat.add_1_r, <- app_assoc in IH.
      specialize (IH Hws).
      cbn [widths_ok forallb].
      destruct (Z.ltb_spec a 0); [|destruct (Z.ltb_spec b 0)]; cbn [orb].
      * replace (0 <=? a)%Z with false by (symmetry; apply Z.leb_gt; lia).
        reflexivity.
      * replace (0 <=? b)%Z with false by (symmetry; apply Z.leb_gt; lia).
        now rewrite andb_false_r.
      * rewrite IH.
        replace (0 <=? a)%Z with true by (symmetry; apply Z.leb_le; lia).
        replace (0 <=? b)%Z with true by (symmetry; apply Z.leb_le; lia).
        cbn [andb].
        assert (Hok : widths_ok (b :: rest)
                      = forallb (fun z => (0 <=? z)%Z) rest).
        { cbn [widths_ok forallb].
          replace (0 <=? b)%Z with true by (symmetry; apply Z.leb_le; lia).
          now destruct rest. }
        rewrite Hok. destruct (forallb _ rest); [|reflexivity].
        rewrite <- app_assoc. cbn [app layers_of length].
        do 2 f_equal. lia.
Qed.

Lemma LinearNet_init_spec (ws : list Z) (alpha p : Q) (fl : bool) (n : nat) :
  LinearNet.init ws alpha p fl n
  = if Qle_bool 0 p && Qle_bool p 1
    then if widths_ok ws
         then Ok (LinearNet.Make fl alpha (nn.Dropout.Make p) (layers_of ws n),
                  n + (length ws - 1))
         else Raise RuntimeError
    else Raise ValueError.
Proof.
  unfold LinearNet.init, cbind at 1, lift at 1, nn.Dropout.init.
  destruct (Qle_bool 0 p && Qle_bool p 1); [|reflexivity].
  unfold cbind at 1.
  replace (range (Z.of_nat (length ws) - 1)) with (seq (length (@nil Z)) (length ws - 1)).
  2:{ unfold range. cbn [length]. f_equal. lia. }
  rewrite (init_layers_from ws ws [] [] n eq_refl).
  destruct (widths_ok ws); reflexivity.
Qed.

Lemma last_cons_default (ws : list Z) :
  forall a b, last (b :: ws) a = last ws b.
Proof.
  induction ws as [|c ws IH]; intros a b; [reflexivity|].
  change (last (b :: c :: ws) a) with (last (c :: ws) a).
  now rewrite (IH a c), (IH b c).
Qed.

Lemma layers_of_chained :
  forall ws a n,
    chained (layers_of (a :: ws) n) (Z.to_nat a) (Z.to_nat (last ws a)).
Proof.
  induction ws as [|b ws IH]; intros a n.
  - reflexivity.
  - cbn [layers_of chained nn.Linear.in_features nn.Linear.out_features].
    split; [reflexivity|].
    rewrite last_cons_default. apply IH.
Qed.

(* ------------------------------------------------------------------ *)
(** * MAB *)

(** ** Construction: every way [MAB.__init__] can end *)

Lemma widths_ok_MAB (e : Z) (ff : list Z) :
  (0 < e)%Z ->
  widths_ok (([e] ++ ff) ++ [e]) = forallb (fun z => (0 <=? z)%Z) ff.
Proof.
  intros He. cbn [app].
  assert (H0 : (0 <=? e)%Z = true) by (apply Z.leb_le; lia).
  destruct ff as [|a ff]; cbn [app widths_ok forallb].
  - now rewrite H0.
  - rewrite H0, forallb_app. cbn [forallb andb].
    now rewrite H0, !andb_true_r.
Qed.

Lemma MAB_init_spec (e h : Z) (ffo : option (list Z)) (fl : bool)
      (act : callable) (ln : bool) (p : Q) (n : nat) :
  MAB.init e h ffo fl act ln p n
  = if (h =? 0)%Z then Raise ZeroDivisionError
    else if negb (e mod h =? 0)%Z then Raise AssertionError
    else if ((e <=? 0) || (h <=? 0))%Z then Raise ValueError
    else match ffo with
         | None => Raise TypeError
         | Some ff =>
             if forallb (fun z => (0 <=? z)%Z) ff
             then if Qle_bool 0 p && Qle_bool p 1
                  then Ok (built_MAB e h ff fl act ln p n,
                           (if ln then S (S n) else S n) + (length ff + 1))
                  else Raise ValueError
             else Raise RuntimeError
         end.
Proof.
  unfold MAB.init, cbind at 1, lift at 1, py_mod.
  destruct (Z.eqb_spec h 0) as [Hh|Hh]; [reflexivity|].
  unfold cbind at 1, lift at 1, py_assert.
  destruct (Z.eqb_spec (e mod h) 0) as [Hm|Hm]; cbn [negb]; [|reflexivity].
  unfold cbind at 1, nn.MultiheadAttention.init.
  destruct ((e <=? 0) || (h <=? 0))%Z eqn:Hpos; [reflexivity|].
  apply orb_false_elim in Hpos. destruct Hpos as [He _].
  apply Z.leb_gt in He.
  assert (Hdiv : ((e / h) * h =? e)%Z = true).
  { apply Z.eqb_eq. rewrite Z.mul_comm. symmetry.
    apply Z.div_exact; assumption. }
  unfold cbind at 1, lift at 1, py_assert. rewrite Hdiv.
  unfold cbind at 1, fresh, cret at 1.
  unfold cbind at 1.
  assert (Hln : (if ln
                 then ln0 <~ nn.LayerNorm.init e ;; cret (Some ln0)
                 else cret None) (S n)
                = Ok (if ln then Some (nn.LayerNorm.Make (S n) (Z.to_nat e))
                      else None,
                      if ln then S (S n) else S n)).
  { destruct ln; [|reflexivity].
    unfold cbind, nn.LayerNorm.init.
    replace (e <? 0)%Z with false by (symmetry; apply Z.ltb_ge; lia).
    reflexivity. }
  rewrite Hln. clear Hln.
  unfold cbind at 1, lift at 1, MAB.widths.
  destruct ffo as [ff|]; [|reflexivity].
  unfold cbind at 1. rewrite LinearNet_init_spec.
  change (Qle_bool 0 LinearNet.default_dropout_p
          && Qle_bool LinearNet.default_dropout_p 1) with true.
  cbv iota. rewrite (widths_ok_MAB e ff He).
  destruct (forallb _ ff); [|reflexivity].
  unfold cbind at 1, lift at 1, nn.Dropout.init.
  destruct (Qle_bool 0 p && Qle_bool p 1); [|reflexivity].
  unfold cret, built_MAB. do 2 f_equal.
  rewrite !length_app. cbn [length]. lia.
Qed.

(** ** The attention sub-layer *)

Lemma transpose_1_0 (t : tensor) (a b c : nat) :
  shape t = [a; b; c] ->
  TensorOps.transpose t 1 0 = Ok (Tensor [b; a; c] (ETranspose 1 0 (val t))).
Proof.
  intros H. unfold TensorOps.transpose, ndim. rewrite H. reflexivity.
Qed.

Lemma unsqueeze_1 (t : tensor) (a b : nat) :
  shape t = [a; b] ->
  TensorOps.unsqueeze t 1 = Ok (Tensor [a; 1; b] (EUnsqueeze 1 (val t))).
Proof.
  intros H. unfold TensorOps.unsqueeze, ndim. rewrite H. reflexivity.
Qed.

Lemma squeeze_1 (t : tensor) (a b : nat) :
  shape t = [a; 1; b] ->
  TensorOps.squeeze t 1 = Ok (Tensor [a; b] (ESqueeze 1 (val t))).
Proof.
  intros H. unfold TensorOps.squeeze, ndim. rewrite H. reflexivity.
Qed.

Lemma MHA_forward_batched (a : nn.MultiheadAttention.t) (q k v : tensor)
      (B L S : nat) :
  nn.MultiheadAttention.batch_first a = true ->
  shape q = [B; L; nn.MultiheadAttention.embed_dim a] ->
  shape k = [B; S; nn.MultiheadAttention.embed_dim a] ->
  shape v = [B; S; nn.MultiheadAttention.embed_dim a] ->
  nn.MultiheadAttention.forward a q k v
  = Ok (Tensor (shape q)
          (EMultiheadAttention (nn.MultiheadAttention.id a) (val q) (val k) (val v)),
        None).
Proof.
  intros Hb Hq Hk Hv. unfold nn.MultiheadAttention.forward.
  assert (Hn : ndim q = 3) by (unfold ndim; now rewrite Hq).
  cbv zeta. rewrite Hb, !Hn. cbn [Nat.eqb andb].
  rewrite (transpose_1_0 q _ _ _ Hq), (transpose_1_0 k _ _ _ Hk),
    (transpose_1_0 v _ _ _ Hv).
  cbn [bind ndim shape length Nat.eqb andb py_assert].
  rewrite Nat.eqb_refl, list_eqb_refl. cbn [py_assert bind negb].
  rewrite Nat.eqb_refl. cbn [negb].
  erewrite transpose_1_0 by reflexivity.
  cbn [bind shape]. now rewrite Hq.
Qed.

Lemma MHA_forward_unbatched (a : nn.MultiheadAttention.t) (q k v : tensor)
      (L S : nat) :
  shape q = [L; nn.MultiheadAttention.embed_dim a] ->
  shape k = [S; nn.MultiheadAttention.embed_dim a] ->
  shape v = [S; nn.MultiheadAttention.embed_dim a] ->
  nn.MultiheadAttention.forward a q k v
  = Ok (Tensor (shape q)
          (EMultiheadAttention (nn.MultiheadAttention.id a) (val q) (val k) (val v)),
        None).
Proof.
  intros Hq Hk Hv. unfold nn.MultiheadAttention.forward.
  assert (Hnq : ndim q = 2) by (unfold ndim; now rewrite Hq).
  assert (Hnk : ndim k = 2) by (unfold ndim; now rewrite Hk).
  assert (Hnv : ndim v = 2) by (unfold ndim; now rewrite Hv).
  cbv zeta. rewrite !Hnq. cbn [Nat.eqb]. rewrite andb_false_r.
  cbn [bind]. rewrite !Hnq, Hnk, Hnv. cbn [Nat.eqb andb bind py_assert].
  rewrite (unsqueeze_1 q _ _ Hq), (unsqueeze_1 k _ _ Hk),
    (unsqueeze_1 v _ _ Hv).
  cbn [bind shape].
  rewrite Nat.eqb_refl, list_eqb_refl. cbn [py_assert bind negb].
  rewrite Nat.eqb_refl. cbn [negb].
  erewrite squeeze_1 by reflexivity.
  cbn [bind shape]. now rewrite Hq.
Qed.

(** An unbatched (2-D) query with a batched (3-D) key is rejected by the
    shape check of the attention sub-layer. *)
Lemma MHA_forward_unbatched_query_batched_key
      (a : nn.MultiheadAttention.t) (q k v : tensor) :
  ndim q = 2 -> ndim k = 3 ->
  nn.MultiheadAttention.forward a q k v = Raise AssertionError.
Proof.
  intros Hq Hk. unfold nn.MultiheadAttention.forward.
  cbv zeta. rewrite !Hq. cbn [Nat.eqb]. rewrite andb_false_r.
  cbn [bind]. rewrite !Hq, Hk. reflexivity.
Qed.

(** Whenever the attention sub-layer returns, its output has the shape of
    the query and no weights. *)
Lemma MHA_forward_inv (a : nn.MultiheadAttention.t) (q k v : tensor) r :
  nn.MultiheadAttention.forward a q k v = Ok r ->
  r = (Tensor (shape q)
         (EMultiheadAttention (nn.MultiheadAttention.id a) (val q) (val k) (val v)),
       None)
  /\ shape q = removelast (shape q) ++ [nn.MultiheadAttention.embed_dim a].
Proof.
  unfold nn.MultiheadAttention.forward. cbv zeta. intros H.
  destruct q as [sq vq], k as [sk vk], v as [sv vv].
  unfold ndim, TensorOps.transpose, TensorOps.unsqueeze, TensorOps.squeeze,
    ndim, wrap_dim, py_assert in H.
  cbn [shape val] in *.
  destruct (nn.MultiheadAttention.batch_first a);
    destruct sq as [|q0 [|q1 [|q2 [|q3 sq]]]];
    cbn [length Nat.eqb andb bind] in H; try discriminate;
    destruct sk as [|k0 [|k1 [|k2 [|k3 sk]]]];
    cbn -[numel list_eqb] in H; try discriminate;
    destruct sv as [|v0 [|v1 [|v2 [|v3 sv]]]];
    cbn -[numel list_eqb] in H; try discriminate;
    change (Pos.to_nat 1) with 1 in H; cbn -[numel list_eqb] in H;
    repeat match type of H with
      | context [if ?c then _ else _] =>
          let E := fresh "E" in
          destruct c eqn:E; cbn -[numel list_eqb] in H; try discriminate
      end;
    repeat match goal with
      | E : (_ =? _) = true |- _ => apply Nat.eqb_eq in E; subst
      end;
    inversion H; split; reflexivity.
Qed.

(** ** The forward pass *)

Lemma LayerNorm_forward_ok (ln : nn.LayerNorm.t) (x : tensor) lead :
  shape x = lead ++ [nn.LayerNorm.normalized_shape ln] ->
  nn.LayerNorm.forward ln x
  = Ok (Tensor (shape x) (ELayerNorm (nn.LayerNorm.id ln) (val x))).
Proof.
  intros Hs. unfold nn.LayerNorm.forward. rewrite Hs.
  rewrite last_snoc, Nat.eqb_refl. destruct lead; reflexivity.
Qed.

Lemma apply_layer_norm_ok (E : nat) (self : MAB.t) (x : tensor) lead :
  MAB_wf E self ->
  shape x = lead ++ [E] ->
  MAB.apply_layer_norm self x
  = Ok (Tensor (shape x) (spec_norm (MAB.layer_norm self) (val x))).
Proof.
  intros (_ & _ & Hln & _) Hs. unfold MAB.apply_layer_norm, spec_norm.
  destruct (MAB.layer_norm self) as [ln|].
  - apply (LayerNorm_forward_ok ln x lead). now rewrite (Hln ln eq_refl).
  - now destruct x.
Qed.

(** Once the attention sub-layer has accepted the pair, the rest of the
    block runs to the end. *)
Lemma MAB_forward_after_attention (E : nat) (self : MAB.t) (X Y : tensor) lead :
  MAB_wf E self ->
  shape X = lead ++ [E] ->
  nn.MultiheadAttention.forward (MAB.attention self) X Y Y
  = Ok (Tensor (shape X)
          (EMultiheadAttention (nn.MultiheadAttention.id (MAB.attention self))
             (val X) (val Y) (val Y)),
        None) ->
  MAB.forward self X Y
  = Ok (Tensor (shape X) (spec_MAB self (val X) (val Y))).
Proof.
  intros Hwf Hs Hatt. unfold MAB.forward. rewrite Hatt. cbn [bind fst].
  rewrite add_same_shape by reflexivity. cbn [bind].
  rewrite (apply_layer_norm_ok E self _ lead Hwf) by exact Hs.
  cbn [bind nn.Dropout.forward shape val].
  rewrite forward_dense_stack.
  pose proof Hwf as (_ & _ & _ & Hch).
  rewrite (dense_stack_ok _ _ _ _ E E lead _ Hch) by exact Hs.
  cbn [bind]. rewrite add_same_shape by (cbn [shape]; now rewrite Hs).
  cbn [bind shape val].
  rewrite (apply_layer_norm_ok E self _ lead Hwf) by exact Hs.
  reflexivity.
Qed.

Lemma MAB_forward_ok (E : nat) (self : MAB.t) (X Y : tensor) :
  MAB_wf E self ->
  attendable E (shape X) (shape Y) ->
  MAB.forward self X Y
  = Ok (Tensor (shape X) (spec_MAB self (val X) (val Y))).
Proof.
  intros Hwf Hsh. pose proof Hwf as (HE & Hbf & _).
  destruct Hsh as [(B & L & S & HX & HY)|(L & S & HX & HY)].
  - apply (MAB_forward_after_attention E self X Y [B; L] Hwf HX).
    apply (MHA_forward_batched _ X Y Y B L S Hbf); now rewrite HE.
  - apply (MAB_forward_after_attention E self X Y [L] Hwf HX).
    apply (MHA_forward_unbatched _ X Y Y L S); now rewrite HE.
Qed.

Lemma MAB_forward_inv (E : nat) (self : MAB.t) (X Y out : tensor) :
  MAB_wf E self ->
  MAB.forward self X Y = Ok out ->
  out = Tensor (shape X) (spec_MAB self (val X) (val Y)).
Proof.
  intros Hwf H. pose proof Hwf as (HE & _).
  destruct (nn.MultiheadAttention.forward (MAB.attention self) X Y Y)
    as [r|e] eqn:Hatt.
  - destruct (MHA_forward_inv _ _ _ _ _ Hatt) as [Hr Hs]. subst r.
    rewrite HE in Hs.
    rewrite (MAB_forward_after_attention E self X Y _ Hwf Hs Hatt) in H.
    now inversion H.
  - unfold MAB.forward in H. rewrite Hatt in H. discriminate.
Qed.

Lemma built_MAB_wf (e h : Z) ff fl act ln p n :
  MAB_wf (Z.to_nat e) (built_MAB e h ff fl act ln p n).
Proof.
  unfold MAB_wf, built_MAB.
  cbn [MAB.attention MAB.layer_norm MAB.feedforward LinearNet.net
       nn.MultiheadAttention.embed_dim nn.MultiheadAttention.batch_first].
  repeat split.
  - intros l Hl. destruct ln; inversion Hl. reflexivity.
  - change (([e] ++ ff) ++ [e]) with (e :: (ff ++ [e])).
    pose proof (layers_of_chained (ff ++ [e]) e
                  (if ln then S (S n) else S n)) as Hc.
    rewrite last_last in Hc. exact Hc.
Qed.

Lemma MAB_init_inv (e h : Z) ffo fl act ln p n self n' :
  MAB.init e h ffo fl act ln p n = Ok (self, n') ->
  (0 < e)%Z /\ (0 < h)%Z /\ (e mod h = 0)%Z
  /\ exists ff,
      ffo = Some ff
      /\ self = built_MAB e h ff fl act ln p n
      /\ n' = (if ln then S (S n) else S n) + (length ff + 1).
Proof.
  rewrite MAB_init_spec. intros H.
  destruct (Z.eqb_spec h 0); [discriminate|].
  destruct (Z.eqb_spec (e mod h) 0) as [Hm|]; [|discriminate].
  cbn [negb] in H.
  destruct ((e <=? 0) || (h <=? 0))%Z eqn:Hpos; [discriminate|].
  apply orb_false_elim in Hpos. destruct Hpos as [He Hh].
  apply Z.leb_gt in He, Hh.
  destruct ffo as [ff|]; [|discriminate].
  destruct (forallb _ ff); [|discriminate].
  destruct (Qle_bool 0 p && Qle_bool p 1); [|discriminate].
  inversion H; subst. repeat split; try assumption.
  exists ff. repeat split.
Qed.

Lemma MAB_init_kw_inv (e : Z) (kw : MAB.kwargs) n self n' :
  MAB.init_kw e kw n = Ok (self, n') ->
  (0 < e)%Z /\ MAB_wf (Z.to_nat e) self.
Proof.
  unfold MAB.init_kw. destruct (MAB.kw_num_heads kw) as [h|]; [|discriminate].
  intros H. apply MAB_init_inv in H.
  destruct H as (He & _ & _ & ff & _ & -> & _).
  split; [assumption|apply built_MAB_wf].
Qed.

(** ** Facts about the operation sequence of a Dense Stack *)

Lemma stack_ops_blocks layers alpha p fl :
  dropout_after_each_linear (stack_ops layers alpha p fl) = true.
Proof.
  induction layers as [|l rest IH]; [reflexivity|].
  cbn [stack_ops]. destruct rest as [|r rest'].
  - destruct fl; reflexivity.
  - exact IH.
Qed.

Lemma stack_ops_count_linear layers alpha p fl :
  length (filter is_linear (stack_ops layers alpha p fl)) = length layers.
Proof.
  induction layers as [|l rest IH]; [reflexivity|].
  cbn [stack_ops]. destruct rest as [|r rest'].
  - destruct fl; reflexivity.
  - cbn [app filter is_linear length]. now rewrite IH.
Qed.

Lemma stack_ops_count_dropout layers alpha p fl :
  length (filter is_dropout (stack_ops layers alpha p fl)) = length layers.
Proof.
  induction layers as [|l rest IH]; [reflexivity|].
  cbn [stack_ops]. destruct rest as [|r rest'].
  - destruct fl; reflexivity.
  - cbn [app filter is_dropout length]. now rewrite IH.
Qed.

Lemma stack_ops_count_leaky_relu layers alpha p fl :
  length (filter is_leaky_relu (stack_ops layers alpha p fl))
  = length layers - (if fl then 1 else 0).
Proof.
  induction layers as [|l rest IH]; [now destruct fl|].
  cbn [stack_ops]. destruct rest as [|r rest'].
  - destruct fl; reflexivity.
  - cbn [app filter is_leaky_relu length]. rewrite IH.
    cbn [length]. destruct fl; lia.
Qed.

Lemma stack_ops_last layers alpha p fl d :
  layers <> [] ->
  last (stack_ops layers alpha p fl) d = OpDropout p.
Proof.
  induction layers as [|l rest IH]; [congruence|]. intros _.
  cbn [stack_ops]. destruct rest as [|r rest'].
  - destruct fl; reflexivity.
  - change (last (stack_ops (r :: rest') alpha p fl) d = OpDropout p).
    apply IH. discriminate.
Qed.

Lemma layers_of_length ws n : length (layers_of ws n) = length ws - 1.
Proof.
  revert n. induction ws as [|a ws IH]; intros n; [reflexivity|].
  destruct ws as [|b ws]; [reflexivity|].
  change (length (layers_of (a :: b :: ws) n))
    with (S (length (layers_of (b :: ws) (S n)))).
  rewrite (IH (S n)). cbn [length]. lia.
Qed.

Lemma LinearNet_init_inv ws alpha p fl n self n' :
  LinearNet.init ws alpha p fl n = Ok (self, n') ->
  self = LinearNet.Make fl alpha (nn.Dropout.Make p) (layers_of ws n).
Proof.
  rewrite LinearNet_init_spec.
  destruct (Qle_bool 0 p && Qle_bool p 1); [|discriminate].
  destruct (widths_ok ws); [|discriminate].
  now inversion 1.
Qed.

(* ------------------------------------------------------------------ *)
(** * Properties of the Dense Stack *)

(** C7: [LinearNet.forward] applies each affine transform in order and,
    after every transform except the last one when [final_linear] is set,
    the leaky rectifier: the index loop of the code computes the Dense
    Stack of the specification, a returned tensor is the input under
    exactly the operations of [stack_ops], of which one per layer is a
    rectifier, less one when [final_linear] is set; and the network built
    from the widths 4, 8, 1 with [final_linear=True] returns
    dropout(linear1(dropout(leaky_relu(linear0(x))))), with no rectifier
    after the last transform. *)
Theorem LinearNet_forward_applies_layers_in_order :
  (forall self x,
      LinearNet.forward self x
      = dense_stack (LinearNet.net self) (LinearNet.leaky_relu_alpha self)
          (LinearNet.dropout self) (LinearNet.final_linear self) x)
  /\ (forall self x out,
        LinearNet.forward self x = Ok out ->
        val out
        = apply_ops (stack_ops (LinearNet.net self)
                       (LinearNet.leaky_relu_alpha self)
                       (nn.Dropout.p (LinearNet.dropout self))
                       (LinearNet.final_linear self)) (val x)
        /\ length (filter is_leaky_relu
                     (stack_ops (LinearNet.net self)
                        (LinearNet.leaky_relu_alpha self)
                        (nn.Dropout.p (LinearNet.dropout self))
                        (LinearNet.final_linear self)))
           = length (LinearNet.net self)
             - (if LinearNet.final_linear self then 1 else 0))
  /\ (forall alpha p n self n' x lead,
        LinearNet.init [4; 8; 1]%Z alpha p true n = Ok (self, n') ->
        shape x = lead ++ [4] ->
        LinearNet.forward self x
        = Ok (Tensor (lead ++ [1])
                (EDropout p
                   (ELinear (S n)
                      (EDropout p (ELeakyRelu alpha (ELinear n (val x)))))))).
Proof.
  split; [exact forward_dense_stack|split].
  - intros self x out H. split.
    + rewrite forward_dense_stack in H. now apply dense_stack_val in H.
    + apply stack_ops_count_leaky_relu.
  - intros alpha p n self n' x lead Hinit Hs.
    apply LinearNet_init_inv in Hinit. subst self.
    rewrite forward_dense_stack.
    cbn [LinearNet.net LinearNet.leaky_relu_alpha LinearNet.dropout
         LinearNet.final_linear].
    rewrite (dense_stack_ok _ _ _ _ 4 1 lead x); [reflexivity| |exact Hs].
    cbn. repeat split.
Qed.

Lemma LinearNet_forward_applies_layers_in_order_witness :
  LinearNet.init [4; 8; 1]%Z (2 # 10)%Q 0%Q true 0
  = Ok (LinearNet.Make true (2 # 10)%Q (nn.Dropout.Make 0%Q)
          (layers_of [4; 8; 1]%Z 0), 2)
  /\ shape (Tensor [5; 4] (EInput "x"%string)) = [5] ++ [4]
  /\ LinearNet.forward
       (LinearNet.Make true (2 # 10)%Q (nn.Dropout.Make 0%Q)
          (layers_of [4; 8; 1]%Z 0))
       (Tensor [5; 4] (EInput "x"%string))
     = Ok (Tensor ([5] ++ [1])
             (EDropout 0%Q
                (ELinear 1
                   (EDropout 0%Q
                      (ELeakyRelu (2 # 10)%Q (ELinear 0 (EInput "x"%string))))))).
Proof.
  split; [reflexivity|split; [reflexivity|]].
  apply (proj2 (proj2 LinearNet_forward_applies_layers_in_order)
           (2 # 10)%Q 0%Q 0 _ 2 (Tensor [5; 4] (EInput "x"%string)) [5]);
    reflexivity.
Defined.

(** C9: for every width list of length at least two and every
    [final_linear] setting, [LinearNet.forward] applies dropout after
    every affine transform, the final one included: on an input whose
    trailing dimension is the first width the pass returns, and whatever
    it returns is the input under a sequence of blocks
    linear, optional rectifier, dropout, with as many dropouts as
    transforms and a dropout as the last operation. *)
Theorem LinearNet_forward_dropout_after_every_linear :
  forall (layer_sizes : list Z) alpha p final_linear n self n' x,
    2 <= length layer_sizes ->
    LinearNet.init layer_sizes alpha p final_linear n = Ok (self, n') ->
    (forall lead,
        shape x = lead ++ [Z.to_nat (hd 0%Z layer_sizes)] ->
        is_ok (LinearNet.forward self x) = true)
    /\ (forall out,
          LinearNet.forward self x = Ok out ->
          exists ops,
            val out = apply_ops ops (val x)
            /\ dropout_after_each_linear ops = true
            /\ length (filter is_linear ops) = length layer_sizes - 1
            /\ length (filter is_dropout ops) = length layer_sizes - 1
            /\ last ops (OpLinear 0) = OpDropout p).
Proof.
  intros ws alpha p fl n self n' x Hlen Hinit.
  apply LinearNet_init_inv in Hinit. subst self. split.
  - intros lead Hs. rewrite forward_dense_stack.
    cbn [LinearNet.net LinearNet.leaky_relu_alpha LinearNet.dropout
         LinearNet.final_linear].
    destruct ws as [|a ws]; [cbn in Hlen; lia|].
    rewrite (dense_stack_ok _ _ _ _ _ _ lead x (layers_of_chained ws a n) Hs).
    reflexivity.
  - intros out H.
    exists (stack_ops (layers_of ws n) alpha p fl).
    rewrite forward_dense_stack in H. apply dense_stack_val in H.
    cbn [LinearNet.net LinearNet.leaky_relu_alpha LinearNet.dropout
         LinearNet.final_linear nn.Dropout.p] in H.
    split; [exact H|]. split; [apply stack_ops_blocks|].
    rewrite stack_ops_count_linear, stack_ops_count_dropout, layers_of_length.
    repeat split. apply stack_ops_last.
    destruct ws as [|a [|b ws]]; cbn in Hlen; try lia. discriminate.
Qed.

Lemma LinearNet_forward_dropout_after_every_linear_witness :
  2 <= length [4; 8; 1]%Z
  /\ LinearNet.init [4; 8; 1]%Z (2 # 10)%Q 0%Q true 0
     = Ok (LinearNet.Make true (2 # 10)%Q (nn.Dropout.Make 0%Q)
             (layers_of [4; 8; 1]%Z 0), 2)
  /\ ((forall lead,
          shape (Tensor [5; 4] (EInput "x"%string))
          = lead ++ [Z.to_nat (hd 0%Z [4; 8; 1]%Z)] ->
          is_ok (LinearNet.forward
                   (LinearNet.Make true (2 # 10)%Q (nn.Dropout.Make 0%Q)
                      (layers_of [4; 8; 1]%Z 0))
                   (Tensor [5; 4] (EInput "x"%string))) = true)
      /\ (forall out,
            LinearNet.forward
              (LinearNet.Make true (2 # 10)%Q (nn.Dropout.Make 0%Q)
                 (layers_of [4; 8; 1]%Z 0))
              (Tensor [5; 4] (EInput "x"%string)) = Ok out ->
            exists ops,
              val out = apply_ops ops (EInput "x"%string)
              /\ dropout_after_each_linear ops = true
              /\ length (filter is_linear ops) = length [4; 8; 1]%Z - 1
              /\ length (filter is_dropout ops) = length [4; 8; 1]%Z - 1
              /\ last ops (OpLinear 0) = OpDropout 0%Q)).
Proof.
  split; [cbn; lia|split; [reflexivity|]].
  apply (LinearNet_forward_dropout_after_every_linear
           [4; 8; 1]%Z (2 # 10)%Q 0%Q true 0 _ 2
           (Tensor [5; 4] (EInput "x"%string)));
    [cbn; lia|reflexivity].
Defined.

(* ------------------------------------------------------------------ *)
(** * Properties of MAB *)

(** The divisibility check of [MAB.__init__] on the inputs that reach it:
    for a non-zero head count the construction fails on its assertion if
    and only if the embedding dimension is not divisible by the head
    count; with [embed_dim=10, num_heads=3] it fails on the assertion, and
    with [embed_dim=10, num_heads=2], a list of non-negative feed-forward
    widths and a dropout probability in [0, 1] it returns the block. *)
Theorem MAB_init_asserts_divisibility :
  (forall e h ffo fl act ln p n,
      h <> 0%Z ->
      (MAB.init e h ffo fl act ln p n = Raise AssertionError
       <-> ~ (h | e)%Z))
  /\ (forall ffo fl act ln p n,
        MAB.init 10 3 ffo fl act ln p n = Raise AssertionError)
  /\ (forall ff fl act ln p n,
        forallb (fun z => (0 <=? z)%Z) ff = true ->
        Qle_bool 0 p && Qle_bool p 1 = true ->
        MAB.init 10 2 (Some ff) fl act ln p n
        = Ok (built_MAB 10 2 ff fl act ln p n,
              (if ln then S (S n) else S n) + (length ff + 1))).
Proof.
  split; [|split].
  - intros e h ffo fl act ln p n Hh. rewrite MAB_init_spec.
    destruct (Z.eqb_spec h 0) as [|_]; [contradiction|].
    rewrite <- (Z.mod_divide e h Hh).
    destruct (Z.eqb_spec (e mod h) 0) as [Hm|Hm]; cbn [negb].
    + split; [|intros Hn; contradiction].
      intros H. exfalso.
      destruct ((e <=? 0) || (h <=? 0))%Z; [discriminate|].
      destruct ffo as [ff|]; [|discriminate].
      destruct (forallb _ ff); [|discriminate].
      destruct (Qle_bool 0 p && Qle_bool p 1); discriminate.
    + split; [intros _; exact Hm|reflexivity].
  - intros. rewrite MAB_init_spec. reflexivity.
  - intros ff fl act ln p n Hff Hp. rewrite MAB_init_spec.
    cbn [Z.eqb negb orb Z.leb Z.compare Z.modulo Z.div_eucl].
    change ((10 mod 2 =? 0)%Z) with true. cbn [negb].
    now rewrite Hff, Hp.
Qed.

Lemma MAB_init_asserts_divisibility_witness :
  (3 <> 0)%Z
  /\ (MAB.init 10 3 (Some []) true torch_softmax false (1 # 10)%Q 0
      = Raise AssertionError
      <-> ~ (3 | 10)%Z)
  /\ forallb (fun z => (0 <=? z)%Z) [10; 20; 10]%Z = true
  /\ Qle_bool 0 (1 # 10) && Qle_bool (1 # 10) 1 = true
  /\ MAB.init 10 2 (Some [10; 20; 10]%Z) true torch_softmax false (1 # 10)%Q 0
     = Ok (built_MAB 10 2 [10; 20; 10]%Z true torch_softmax false
             (1 # 10)%Q 0, 5).
Proof.
  split; [discriminate|]. split.
  - apply (proj1 MAB_init_asserts_divisibility
             10%Z 3%Z (Some []) true torch_softmax false (1 # 10)%Q 0).
    discriminate.
  - split; [reflexivity|split; [reflexivity|]].
    exact (proj2 (proj2 MAB_init_asserts_divisibility)
             [10; 20; 10]%Z true torch_softmax false (1 # 10)%Q 0
             eq_refl eq_refl).
Defined.

(** With a head count of zero the remainder itself cannot be computed. *)
Lemma MAB_init_zero_heads e ffo fl act ln p n :
  MAB.init e 0 ffo fl act ln p n = Raise ZeroDivisionError.
Proof. now rewrite MAB_init_spec. Qed.

(** C1 (what the code does): [MAB(embed_dim=10, num_heads=2)], every
    other argument left at its default, does not construct a block.  The
    assertion passes, 2 dividing 10, and the default [ff_layers=None]
    then reaches the list concatenation
    [[embed_dim] + ff_layers + [embed_dim]], which raises [TypeError];
    this holds for every setting of the remaining arguments.  And with a
    head count of zero the construction fails, 0 not dividing 10, but on
    the [ZeroDivisionError] of the remainder and not on the assertion. *)
Theorem MAB_init_10_2_with_defaults_raises :
  (forall n,
      MAB.init_kw 10 (MAB.Kwargs (Some 2%Z) None None None None None) n
      = Raise TypeError)
  /\ (2 | 10)%Z
  /\ (forall fl act ln p n,
        MAB.init 10 2 None fl act ln p n = Raise TypeError)
  /\ (forall ffo fl act ln p n,
        MAB.init 10 0 ffo fl act ln p n = Raise ZeroDivisionError)
  /\ ~ (0 | 10)%Z.
Proof.
  split; [|split; [|split; [|split]]].
  - intros n. unfold MAB.init_kw. cbn [MAB.kw_num_heads MAB.kw_ff_layers].
    now rewrite MAB_init_spec.
  - exists 5%Z. reflexivity.
  - intros. now rewrite MAB_init_spec.
  - intros. now rewrite MAB_init_spec.
  - intros [z Hz]. lia.
Qed.

(** C8: when the embedding dimension is divisible by the head count,
    constructing an [MAB] with [ff_layers] left at its default [None]
    raises: once the attention sub-layer is built (positive dimension and
    head count) the error is the [TypeError] of the list concatenation
    [[embed_dim] + ff_layers + [embed_dim]]; and a construction that
    returns was given a list. *)
Theorem MAB_init_without_ff_layers_raises :
  forall e h fl act ln p n,
    (h | e)%Z ->
    (exists exn,
        MAB.init e h None fl act ln p n = Raise exn
        /\ ((0 < e)%Z -> (0 < h)%Z -> exn = TypeError))
    /\ (forall ffo r,
          MAB.init e h ffo fl act ln p n = Ok r -> exists ff, ffo = Some ff).
Proof.
  intros e h fl act ln p n Hdiv. split.
  - rewrite MAB_init_spec.
    destruct (Z.eqb_spec h 0) as [Hh|Hh].
    { eexists; split; [reflexivity|]. lia. }
    apply (Z.mod_divide e h Hh) in Hdiv. rewrite Hdiv. cbn [Z.eqb negb].
    destruct ((e <=? 0) || (h <=? 0))%Z eqn:Hpos.
    + eexists; split; [reflexivity|]. intros He Hh'.
      apply orb_true_iff in Hpos. destruct Hpos as [H|H];
        apply Z.leb_le in H; lia.
    + eexists; split; [reflexivity|]. reflexivity.
  - intros ffo [self n'] H. apply MAB_init_inv in H.
    destruct H as (_ & _ & _ & ff & Hff & _). now exists ff.
Qed.

Lemma MAB_init_without_ff_layers_raises_witness :
  (2 | 10)%Z
  /\ (exists exn,
         MAB.init 10 2 None true torch_softmax false (1 # 10)%Q 0 = Raise exn
         /\ ((0 < 10)%Z -> (0 < 2)%Z -> exn = TypeError)).
Proof.
  assert (H : (2 | 10)%Z) by (exists 5%Z; reflexivity).
  split; [exact H|].
  exact (proj1 (MAB_init_without_ff_layers_raises
                  10%Z 2%Z true torch_softmax false (1 # 10)%Q 0 H)).
Defined.

(** C4: the forward pass of a constructed [MAB] on [(X, Y)] is the
    pipeline of the specification: multihead attention with query [X] and
    key and value [Y], weights discarded; the residual [X + A], layer
    normalization exactly when it was enabled, dropout; then
    [H + FeedForward(H)], layer normalization when enabled, dropout; and
    the output has the shape of [X].  It returns on every batched pair of
    one batch size and on every unbatched pair. *)
Theorem MAB_forward_computes_spec :
  forall e h ffo fl act ln p n self n' X Y,
    MAB.init e h ffo fl act ln p n = Ok (self, n') ->
    (if ln then exists l, MAB.layer_norm self = Some l
     else MAB.layer_norm self = None)
    /\ nn.Dropout.p (MAB.dropout self) = p
    /\ (attendable (Z.to_nat e) (shape X) (shape Y) ->
        MAB.forward self X Y
        = Ok (Tensor (shape X) (spec_MAB self (val X) (val Y))))
    /\ (forall out,
          MAB.forward self X Y = Ok out ->
          shape out = shape X /\ val out = spec_MAB self (val X) (val Y)).
Proof.
  intros e h ffo fl act ln p n self n' X Y Hinit.
  apply MAB_init_inv in Hinit.
  destruct Hinit as (_ & _ & _ & ff & _ & -> & _).
  pose proof (built_MAB_wf e h ff fl act ln p n) as Hwf.
  split; [destruct ln; cbn; eauto|]. split; [reflexivity|]. split.
  - intros Hsh. exact (MAB_forward_ok _ _ X Y Hwf Hsh).
  - intros out H. apply (MAB_forward_inv _ _ _ _ _ Hwf) in H.
    subst out. split; reflexivity.
Qed.

Lemma MAB_forward_computes_spec_witness :
  MAB.init 10 2 (Some []) true torch_softmax true (1 # 10)%Q 0
  = Ok (built_MAB 10 2 [] true torch_softmax true (1 # 10)%Q 0, 3)
  /\ attendable (Z.to_nat 10) [16; 30; 10] [16; 7; 10]
  /\ MAB.forward (built_MAB 10 2 [] true torch_softmax true (1 # 10)%Q 0)
       (Tensor [16; 30; 10] (EInput "X"%string))
       (Tensor [16; 7; 10] (EInput "Y"%string))
     = Ok (Tensor [16; 30; 10]
             (spec_MAB (built_MAB 10 2 [] true torch_softmax true (1 # 10)%Q 0)
                (EInput "X"%string) (EInput "Y"%string))).
Proof.
  assert (Ha : attendable (Z.to_nat 10) [16; 30; 10] [16; 7; 10]).
  { left. exists 16, 30, 7. split; reflexivity. }
  split; [reflexivity|split; [exact Ha|]].
  exact (proj1 (proj2 (proj2
           (MAB_forward_computes_spec
              10%Z 2%Z (Some []) true torch_softmax true (1 # 10)%Q 0 _ 3
              (Tensor [16; 30; 10] (EInput "X"%string))
              (Tensor [16; 7; 10] (EInput "Y"%string)) eq_refl))) Ha).
Defined.

(** C10: an [MAB] constructed with normalization enabled holds one
    [LayerNorm] instance (construction allocates the attention sub-layer,
    that one normalization module and the affine layers, nothing else),
    and the forward pass applies that same instance after the attention
    residual and after the feed-forward residual. *)
Theorem MAB_layer_norm_is_shared :
  forall e h ffo fl act p n self n',
    MAB.init e h ffo fl act true p n = Ok (self, n') ->
    exists ln,
      MAB.layer_norm self = Some ln
      /\ nn.MultiheadAttention.id (MAB.attention self) = n
      /\ nn.LayerNorm.id ln = S n
      /\ n' = S (S n) + length (LinearNet.net (MAB.feedforward self))
      /\ (forall X Y,
            attendable (Z.to_nat e) (shape X) (shape Y) ->
            is_ok (MAB.forward self X Y) = true)
      /\ (forall X Y out,
            MAB.forward self X Y = Ok out ->
            let A := EMultiheadAttention n (val X) (val Y) (val Y) in
            let H := EDropout p
                       (ELayerNorm (nn.LayerNorm.id ln) (EAdd (val X) A)) in
            val out
            = EDropout p
                (ELayerNorm (nn.LayerNorm.id ln)
                   (EAdd H (spec_feedforward (MAB.feedforward self) H)))).
Proof.
  intros e h ffo fl act p n self n' Hinit.
  apply MAB_init_inv in Hinit.
  destruct Hinit as (_ & _ & _ & ff & _ & -> & ->).
  pose proof (built_MAB_wf e h ff fl act true p n) as Hwf.
  exists (nn.LayerNorm.Make (S n) (Z.to_nat e)).
  split; [reflexivity|]. split; [reflexivity|]. split; [reflexivity|].
  split; [|split].
  - cbn [built_MAB MAB.feedforward LinearNet.net].
    rewrite layers_of_length, !length_app. cbn [length]. lia.
  - intros X Y Hsh. now rewrite (MAB_forward_ok _ _ X Y Hwf Hsh).
  - intros X Y out H. apply (MAB_forward_inv _ _ _ _ _ Hwf) in H.
    subst out. reflexivity.
Qed.

Lemma MAB_layer_norm_is_shared_witness :
  MAB.init 10 2 (Some [20]%Z) true torch_softmax true (1 # 10)%Q 0
  = Ok (built_MAB 10 2 [20]%Z true torch_softmax true (1 # 10)%Q 0, 4)
  /\ exists ln,
      MAB.layer_norm (built_MAB 10 2 [20]%Z true torch_softmax true (1 # 10)%Q 0)
      = Some ln
      /\ nn.LayerNorm.id ln = 1.
Proof.
  split; [reflexivity|].
  destruct (MAB_layer_norm_is_shared
              10%Z 2%Z (Some [20]%Z) true torch_softmax (1 # 10)%Q 0 _ 4 eq_refl)
    as (ln & Hln & _ & Hid & _).
  exists ln. split; assumption.
Defined.

(* ------------------------------------------------------------------ *)
(** * PMA *)

Lemma repeat_over_batch (t : tensor) (B k E : nat) :
  shape t = [1; k; E] ->
  TensorOps.repeat t [B; 1; 1]
  = Ok (Tensor [B; k; E] (ERepeat [B; 1; 1] (val t))).
Proof.
  intros H. unfold TensorOps.repeat, ndim. rewrite H.
  cbn [length Nat.ltb Nat.leb Nat.sub List.repeat app combine map fst snd].
  now rewrite Nat.mul_1_r, !Nat.mul_1_l.
Qed.

Lemma size_0_batched (t : tensor) (B N E : nat) :
  shape t = [B; N; E] -> TensorOps.size t 0 = Ok B.
Proof.
  intros H. unfold TensorOps.size, ndim. rewrite H. reflexivity.
Qed.

Lemma PMA_init_inv (E k : Z) (kw : MAB.kwargs) n self n' :
  PMA.init E k kw n = Ok (self, n') ->
  MAB_wf (Z.to_nat E) (PMA.mab self)
  /\ PMA.seed_count self = k
  /\ (0 <= k)%Z
  /\ shape (PMA.S self) = [1; Z.to_nat k; Z.to_nat E].
Proof.
  unfold PMA.init, cbind at 1.
  destruct (MAB.init_kw E kw n) as [[mab n1]|] eqn:Hmab; [|discriminate].
  apply MAB_init_kw_inv in Hmab. destruct Hmab as [HE Hwf].
  unfold cbind at 1, torch.empty. cbn [forallb].
  destruct (Z.leb_spec 0 k) as [Hk|Hk]; [|discriminate].
  replace (0 <=? E)%Z with true by (symmetry; apply Z.leb_le; lia).
  cbn [andb]. unfold cbind at 1, fresh, cret at 1.
  unfold cbind, lift, nn.init.xavier_uniform_, cret. cbn.
  intros H. inversion H; subst. cbn [PMA.mab PMA.seed_count PMA.S shape].
  split; [assumption|]. split; [reflexivity|]. split; [assumption|].
  reflexivity.
Qed.

(** C5: for every batched input [X], [PMA.forward] repeats the learnable
    seed tensor along the batch dimension to the batch size of [X] and
    returns [MAB(seeds, X)]; the set-size dimension of the output is the
    configured seed count, whatever the set size of [X]. *)
Theorem PMA_forward_pools_to_seed_count :
  forall (E k : Z) kw n self n' X (B N : nat),
    PMA.init E k kw n = Ok (self, n') ->
    shape X = [B; N; Z.to_nat E] ->
    PMA.seed_count self = k
    /\ exists seeds,
        TensorOps.repeat (PMA.S self) [B; 1; 1] = Ok seeds
        /\ shape seeds = [B; Z.to_nat (PMA.seed_count self); Z.to_nat E]
        /\ PMA.forward self X = MAB.forward (PMA.mab self) seeds X
        /\ PMA.forward self X
           = Ok (Tensor [B; Z.to_nat (PMA.seed_count self); Z.to_nat E]
                   (spec_MAB (PMA.mab self)
                      (ERepeat [B; 1; 1] (val (PMA.S self))) (val X))).
Proof.
  intros E k kw n self n' X B N Hinit HX.
  apply PMA_init_inv in Hinit. destruct Hinit as (Hwf & Hk & _ & HS).
  split; [exact Hk|]. rewrite Hk.
  pose proof (repeat_over_batch (PMA.S self) B _ _ HS) as Hrep.
  eexists. split; [exact Hrep|]. split; [reflexivity|].
  assert (Hf : PMA.forward self X
               = MAB.forward (PMA.mab self)
                   (Tensor [B; Z.to_nat k; Z.to_nat E]
                      (ERepeat [B; 1; 1] (val (PMA.S self)))) X).
  { unfold PMA.forward. rewrite (size_0_batched X B N _ HX). cbn [bind].
    now rewrite Hrep. }
  split; [exact Hf|]. rewrite Hf.
  rewrite (MAB_forward_ok (Z.to_nat E)); [reflexivity|exact Hwf|].
  left. exists B, (Z.to_nat k), N. split; [reflexivity|exact HX].
Qed.

Lemma PMA_forward_pools_to_seed_count_witness :
  PMA.init 10 4 example_kwargs 0 = Ok (example_PMA, 6)
  /\ shape example_X = [16; 30; Z.to_nat 10]
  /\ PMA.forward example_PMA example_X
     = Ok (Tensor [16; 4; 10]
             (spec_MAB (example_MAB 0)
                (ERepeat [16; 1; 1] (EParam 5)) (EInput "X"%string))).
Proof.
  split; [reflexivity|split; [reflexivity|]].
  destruct (PMA_forward_pools_to_seed_count
              10%Z 4%Z example_kwargs 0 example_PMA 6 example_X 16 30
              eq_refl eq_refl)
    as (_ & seeds & _ & _ & _ & H).
  exact H.
Defined.

(* ------------------------------------------------------------------ *)
(** * IPAB *)

Lemma IPAB_init_inv (E : Z) (kw : MAB.kwargs) n self n' :
  IPAB.init E kw n = Ok (self, n') ->
  MAB_wf (Z.to_nat E) (IPAB.mab1 self)
  /\ MAB_wf (Z.to_nat E) (IPAB.mab2 self).
Proof.
  unfold IPAB.init, cbind at 1.
  destruct (MAB.init_kw E kw n) as [[m1 n1]|] eqn:H1; [|discriminate].
  unfold cbind at 1.
  destruct (MAB.init_kw E kw n1) as [[m2 n2]|] eqn:H2; [|discriminate].
  apply MAB_init_kw_inv in H1, H2. unfold cret.
  intros H. inversion H; subst. cbn [IPAB.mab1 IPAB.mab2]. tauto.
Qed.

Lemma IPAB_forward_ok (E : nat) (self : IPAB.t) (X Z : tensor) (B N : nat) :
  MAB_wf E (IPAB.mab1 self) ->
  MAB_wf E (IPAB.mab2 self) ->
  shape X = [B; N; E] ->
  shape Z = [B; E] ->
  exists out Z',
    IPAB.forward self X Z = Ok (out, Z')
    /\ shape out = shape X /\ shape Z' = shape Z.
Proof.
  intros H1 H2 HX HZ. unfold IPAB.forward.
  rewrite (unsqueeze_1 Z B E HZ). cbn [bind].
  rewrite (MAB_forward_ok E (IPAB.mab1 self));
    [|exact H1|left; exists B, 1, N; split; [reflexivity|exact HX]].
  cbn [bind shape].
  rewrite (MAB_forward_ok E (IPAB.mab2 self));
    [|exact H2|left; exists B, N, 1; split; [exact HX|reflexivity]].
  cbn [bind]. erewrite squeeze_1 by reflexivity. cbn [bind].
  eexists. eexists. split; [reflexivity|]. cbn [shape]. now rewrite HZ.
Qed.

Lemma IPAB_chain_ok (E : nat) (self : IPAB.t) (X : tensor) (B N : nat) :
  MAB_wf E (IPAB.mab1 self) ->
  MAB_wf E (IPAB.mab2 self) ->
  shape X = [B; N; E] ->
  forall calls Z,
    shape Z = [B; E] ->
    exists outs Zn,
      IPAB.chain self X Z calls = Ok (outs, Zn)
      /\ length outs = calls
      /\ Forall (fun o => shape o = shape X) outs
      /\ shape Zn = shape Z.
Proof.
  intros H1 H2 HX. induction calls as [|c IH]; intros Z HZ.
  - exists [], Z. repeat split. constructor.
  - destruct (IPAB_forward_ok E self X Z B N H1 H2 HX HZ)
      as (out & Z' & Hf & Hout & HZ').
    destruct (IH Z') as (outs & Zn & Hc & Hlen & Hall & HZn);
      [now rewrite HZ', HZ|].
    exists (out :: outs), Zn. cbn [IPAB.chain]. rewrite Hf. cbn [bind snd fst].
    rewrite Hc. cbn [bind fst snd].
    split; [reflexivity|]. split; [cbn [length]; now rewrite Hlen|].
    split; [now constructor|]. now rewrite HZn, HZ'.
Qed.

(** C6: for every batched input [X] and latent vector [Z] of a
    constructed [IPAB], the forward pass returns a pair [(out, Z_new)]
    with [out] of the shape of [X] and [Z_new] of the shape of [Z]; and
    any number of chained calls with the same [X], each fed the latent
    vector of the previous one, returns without raising. *)
Theorem IPAB_forward_preserves_shapes :
  forall (E : Z) kw n self n' X Z (B N : nat),
    IPAB.init E kw n = Ok (self, n') ->
    shape X = [B; N; Z.to_nat E] ->
    shape Z = [B; Z.to_nat E] ->
    (exists out Z_new,
        IPAB.forward self X Z = Ok (out, Z_new)
        /\ shape out = shape X /\ shape Z_new = shape Z)
    /\ (forall calls,
          exists outs Zn,
            IPAB.chain self X Z calls = Ok (outs, Zn)
            /\ length outs = calls
            /\ Forall (fun o => shape o = shape X) outs
            /\ shape Zn = shape Z).
Proof.
  intros E kw n self n' X Z B N Hinit HX HZ.
  apply IPAB_init_inv in Hinit. destruct Hinit as [H1 H2]. split.
  - exact (IPAB_forward_ok _ self X Z B N H1 H2 HX HZ).
  - intros calls.
    exact (IPAB_chain_ok _ self X B N H1 H2 HX calls Z HZ).
Qed.

Lemma IPAB_forward_preserves_shapes_witness :
  IPAB.init 10 example_kwargs 0 = Ok (example_IPAB, 10)
  /\ shape example_X = [16; 30; Z.to_nat 10]
  /\ shape example_Z = [16; Z.to_nat 10]
  /\ exists outs Zn,
      IPAB.chain example_IPAB example_X example_Z 3 = Ok (outs, Zn)
      /\ length outs = 3
      /\ Forall (fun o => shape o = shape example_X) outs
      /\ shape Zn = shape example_Z.
Proof.
  split; [reflexivity|split; [reflexivity|split; [reflexivity|]]].
  exact (proj2 (IPAB_forward_preserves_shapes
                  10%Z example_kwargs 0 example_IPAB 10 example_X example_Z
                  16 30 eq_refl eq_refl eq_refl) 3).
Defined.

(* ------------------------------------------------------------------ *)
(** * ISAB *)

Lemma ISAB_init_inv (m E : Z) (kw : MAB.kwargs) n self n' :
  ISAB.init m E kw n = Ok (self, n') ->
  MAB_wf (Z.to_nat E) (ISAB.mab1 self)
  /\ MAB_wf (Z.to_nat E) (ISAB.mab2 self)
  /\ shape (ISAB.I self) = [Z.to_nat m; Z.to_nat E].
Proof.
  unfold ISAB.init, cbind at 1.
  destruct (MAB.init_kw E kw n) as [[m1 n1]|] eqn:H1; [|discriminate].
  unfold cbind at 1.
  destruct (MAB.init_kw E kw n1) as [[m2 n2]|] eqn:H2; [|discriminate].
  apply MAB_init_kw_inv in H1, H2.
  unfold cbind at 1, torch.randn, torch.empty.
  destruct (forallb _ [m; E]); [|discriminate].
  unfold cbind, fresh, cret.
  intros H. inversion H; subst. cbn [ISAB.mab1 ISAB.mab2 ISAB.I shape map].
  tauto.
Qed.

(** C3 (what the code does): on every batched input a constructed [ISAB]
    raises.  The inducing points are a 2-D parameter handed to the first
    block as they are, and the attention sub-layer rejects an unbatched
    query with a batched key. *)
Theorem ISAB_forward_batched_input_raises :
  forall (m E : Z) kw n self n' X,
    ISAB.init m E kw n = Ok (self, n') ->
    ndim X = 3 ->
    ISAB.forward self X = Raise AssertionError.
Proof.
  intros m E kw n self n' X Hinit HX.
  apply ISAB_init_inv in Hinit. destruct Hinit as (_ & _ & HI).
  unfold ISAB.forward, MAB.forward.
  rewrite MHA_forward_unbatched_query_batched_key;
    [reflexivity| |exact HX].
  unfold ndim. now rewrite HI.
Qed.

Lemma ISAB_forward_batched_input_raises_witness :
  ISAB.init 4 10 example_kwargs 0 = Ok (example_ISAB, 11)
  /\ ndim example_X = 3
  /\ ISAB.forward example_ISAB example_X = Raise AssertionError.
Proof.
  split; [reflexivity|split; [reflexivity|]].
  exact (ISAB_forward_batched_input_raises
           4%Z 10%Z example_kwargs 0 example_ISAB 11 example_X
           eq_refl eq_refl).
Defined.

(** On an unbatched set the two blocks compose and the shape is kept. *)
Lemma ISAB_forward_unbatched_ok (m E : Z) kw n self n' X (N : nat) :
  ISAB.init m E kw n = Ok (self, n') ->
  shape X = [N; Z.to_nat E] ->
  exists out, ISAB.forward self X = Ok out /\ shape out = shape X.
Proof.
  intros Hinit HX. apply ISAB_init_inv in Hinit.
  destruct Hinit as (H1 & H2 & HI). unfold ISAB.forward.
  rewrite (MAB_forward_ok (Z.to_nat E) (ISAB.mab1 self));
    [|exact H1|right; exists (Z.to_nat m), N; split; [exact HI|exact HX]].
  cbn [bind].
  rewrite (MAB_forward_ok (Z.to_nat E) (ISAB.mab2 self));
    [|exact H2|right; exists N, (Z.to_nat m); split; [exact HX|exact HI]].
  eexists. split; reflexivity.
Qed.

(* ------------------------------------------------------------------ *)
(** * Attention *)

Lemma matmul_2d (a b : tensor) (n k p : nat) :
  shape a = [n; k] -> shape b = [k; p] ->
  torch.matmul a b = Ok (Tensor [n; p] (EMatmul (val a) (val b))).
Proof.
  intros Ha Hb. unfold torch.matmul, ndim. rewrite Ha, Hb.
  cbn. now rewrite Nat.eqb_refl.
Qed.

Lemma transpose_last_two_2d (t : tensor) (a b : nat) :
  shape t = [a; b] ->
  TensorOps.transpose t (-2) (-1)
  = Ok (Tensor [b; a] (ETranspose 0 1 (val t))).
Proof.
  intros H. unfold TensorOps.transpose, ndim. rewrite H. reflexivity.
Qed.

Lemma size_last_2d (t : tensor) (a b : nat) :
  shape t = [a; b] -> TensorOps.size t (-1) = Ok b.
Proof.
  intros H. unfold TensorOps.size, ndim. rewrite H. reflexivity.
Qed.

(** With an injected normalizer that accepts the scores, the forward pass
    is [normalize(Q.K^T / sqrt(d)).V]. *)
Lemma Attention_forward_injected (f : callable) (Q K V : tensor)
      (n m d dv : nat) (s : tensor) :
  shape Q = [n; d] -> shape K = [m; d] -> shape V = [m; dv] ->
  f (Tensor [n; m]
       (EDivSqrt (EMatmul (val Q) (ETranspose 0 1 (val K))) d)) = Ok s ->
  Attention.forward (Attention.init (Some f)) Q K V = torch.matmul s V.
Proof.
  intros HQ HK HV Hf. unfold Attention.forward.
  rewrite (size_last_2d Q n d HQ). cbn [bind].
  rewrite (transpose_last_two_2d K m d HK). cbn [bind].
  erewrite matmul_2d by (try exact HQ; reflexivity).
  cbn [bind TensorOps.div_sqrt shape val Attention.init
       Attention.activation_function].
  now rewrite Hf.
Qed.

Lemma Attention_forward_softmax_last_axis (Q K V : tensor) (n m d dv : nat) :
  shape Q = [n; d] -> shape K = [m; d] -> shape V = [m; dv] ->
  Attention.forward (Attention.init (Some softmax_last_axis)) Q K V
  = Ok (Tensor [n; dv]
          (EMatmul
             (ESoftmax 1
                (EDivSqrt (EMatmul (val Q) (ETranspose 0 1 (val K))) d))
             (val V))).
Proof.
  intros HQ HK HV.
  rewrite (Attention_forward_injected softmax_last_axis Q K V n m d dv
             (Tensor [n; m]
                (ESoftmax 1
                   (EDivSqrt (EMatmul (val Q) (ETranspose 0 1 (val K))) d)))
             HQ HK HV eq_refl).
  erewrite matmul_2d by (first [exact HV|reflexivity]). reflexivity.
Qed.

(** C2 (what the code does): an [Attention] built with the default
    normalizer raises on every input.  The default is [torch.softmax]
    itself, which [forward] calls with the scores as its only argument,
    and [torch.softmax] requires the axis; on matrices of matching
    dimensions the error is that [TypeError]. *)
Theorem Attention_default_normalizer_raises :
  (forall Q K V,
      is_ok (Attention.forward (Attention.init None) Q K V) = false)
  /\ (forall Q K V (n m d dv : nat),
        shape Q = [n; d] -> shape K = [m; d] -> shape V = [m; dv] ->
        Attention.forward (Attention.init None) Q K V = Raise TypeError).
Proof.
  split.
  - intros Q K V. unfold Attention.forward.
    destruct (TensorOps.size Q (-1)) as [d|]; [|reflexivity]. cbn [bind].
    destruct (TensorOps.transpose K (-2) (-1)) as [Kt|]; [|reflexivity].
    cbn [bind].
    destruct (torch.matmul Q Kt) as [QK|]; reflexivity.
  - intros Q K V n m d dv HQ HK HV. unfold Attention.forward.
    rewrite (size_last_2d Q n d HQ). cbn [bind].
    rewrite (transpose_last_two_2d K m d HK). cbn [bind].
    erewrite matmul_2d by (try exact HQ; reflexivity).
    reflexivity.
Qed.

Lemma Attention_default_normalizer_raises_witness :
  shape (Tensor [5; 4] (EInput "Q"%string)) = [5; 4]
  /\ shape (Tensor [7; 4] (EInput "K"%string)) = [7; 4]
  /\ shape (Tensor [7; 3] (EInput "V"%string)) = [7; 3]
  /\ Attention.forward (Attention.init None)
       (Tensor [5; 4] (EInput "Q"%string))
       (Tensor [7; 4] (EInput "K"%string))
       (Tensor [7; 3] (EInput "V"%string))
     = Raise TypeError.
Proof.
  split; [reflexivity|split; [reflexivity|split; [reflexivity|]]].
  exact (proj2 Attention_default_normalizer_raises
           (Tensor [5; 4] (EInput "Q"%string))
           (Tensor [7; 4] (EInput "K"%string))
           (Tensor [7; 3] (EInput "V"%string))
           5 7 4 3 eq_refl eq_refl eq_refl).
Defined.

(* ------------------------------------------------------------------ *)
(** * Further properties of LinearNet *)

Lemma layers_of_nth :
  forall ws n i a b,
    nth_error ws i = Some a ->
    nth_error ws (S i) = Some b ->
    nth_error (layers_of ws n) i
    = Some (nn.Linear.Make (n + i) (Z.to_nat a) (Z.to_nat b)).
Proof.
  induction ws as [|w ws IH]; intros n i a b Ha Hb.
  - destruct i; discriminate.
  - destruct ws as [|w' ws]; [destruct i; discriminate|].
    destruct i as [|i].
    + cbn in Ha, Hb. inversion Ha; inversion Hb; subst.
      cbn [layers_of nth_error]. now rewrite Nat.add_0_r.
    + change (nth_error (layers_of (w :: w' :: ws) n) (S i))
        with (nth_error (layers_of (w' :: ws) (S n)) i).
      rewrite (IH (S n) i a b Ha Hb). do 2 f_equal. lia.
Qed.

Lemma widths_ok_pair :
  forall ws i a b,
    widths_ok ws = true ->
    nth_error ws i = Some a ->
    nth_error ws (S i) = Some b ->
    (0 <= a)%Z /\ (0 <= b)%Z.
Proof.
  intros ws i a b Hok Ha Hb.
  assert (Hall : forallb (fun z => (0 <=? z)%Z) ws = true).
  { destruct ws as [|w [|w' ws]]; [destruct i; discriminate| |exact Hok].
    destruct i as [|[|i]]; discriminate. }
  rewrite forallb_forall in Hall.
  split; apply Z.leb_le, Hall; eapply nth_error_In; eassumption.
Qed.

(** A constructed [LinearNet] keeps its arguments and holds one affine
    layer per pair of consecutive widths: layer [i] maps width [i] to
    width [i+1], both non-negative, and the layers are distinct modules
    allocated in order. *)
Theorem LinearNet_init_builds_one_layer_per_width_pair :
  forall ws alpha p fl n self n',
    LinearNet.init ws alpha p fl n = Ok (self, n') ->
    LinearNet.final_linear self = fl
    /\ LinearNet.leaky_relu_alpha self = alpha
    /\ nn.Dropout.p (LinearNet.dropout self) = p
    /\ length (LinearNet.net self) = length ws - 1
    /\ n' = n + (length ws - 1)
    /\ (forall i a b,
          nth_error ws i = Some a ->
          nth_error ws (S i) = Some b ->
          nth_error (LinearNet.net self) i
          = Some (nn.Linear.Make (n + i) (Z.to_nat a) (Z.to_nat b))
          /\ (0 <= a)%Z /\ (0 <= b)%Z).
Proof.
  intros ws alpha p fl n self n'. rewrite LinearNet_init_spec.
  destruct (Qle_bool 0 p && Qle_bool p 1); [|discriminate].
  destruct (widths_ok ws) eqn:Hok; [|discriminate].
  intros H. inversion H; subst.
  cbn [LinearNet.final_linear LinearNet.leaky_relu_alpha LinearNet.dropout
       LinearNet.net nn.Dropout.p].
  repeat (split; [reflexivity|]). split; [apply layers_of_length|].
  split; [reflexivity|]. intros i a b Ha Hb.
  split; [now apply layers_of_nth|]. exact (widths_ok_pair ws i a b Hok Ha Hb).
Qed.

Lemma LinearNet_init_builds_one_layer_per_width_pair_witness :
  LinearNet.init [10; 20; 30; 1]%Z (2 # 10)%Q 0%Q false 0
  = Ok (LinearNet.Make false (2 # 10)%Q (nn.Dropout.Make 0%Q)
          (layers_of [10; 20; 30; 1]%Z 0), 3)
  /\ length (layers_of [10; 20; 30; 1]%Z 0) = length [10; 20; 30; 1]%Z - 1.
Proof.
  split; [reflexivity|].
  exact (proj1 (proj2 (proj2 (proj2
           (LinearNet_init_builds_one_layer_per_width_pair
              [10; 20; 30; 1]%Z (2 # 10)%Q 0%Q false 0 _ 3 eq_refl))))).
Defined.

(** [LinearNet.__init__] returns exactly when the dropout probability lies
    in [0, 1] and the width list has fewer than two entries or only
    non-negative ones.  A bad probability raises [ValueError] whatever the
    widths are, since the dropout module is built first; otherwise a
    negative width raises [RuntimeError]. *)
Theorem LinearNet_init_returns_iff :
  forall ws alpha p fl n,
    is_ok (LinearNet.init ws alpha p fl n)
    = (Qle_bool 0 p && Qle_bool p 1) && widths_ok ws
    /\ (Qle_bool 0 p && Qle_bool p 1 = false ->
        LinearNet.init ws alpha p fl n = Raise ValueError)
    /\ (Qle_bool 0 p && Qle_bool p 1 = true ->
        widths_ok ws = false ->
        LinearNet.init ws alpha p fl n = Raise RuntimeError).
Proof.
  intros ws alpha p fl n. rewrite LinearNet_init_spec.
  destruct (Qle_bool 0 p && Qle_bool p 1); destruct (widths_ok ws);
    repeat split; intros; try reflexivity; discriminate.
Qed.

Lemma LinearNet_init_returns_iff_witness :
  Qle_bool 0 (3 # 2) && Qle_bool (3 # 2) 1 = false
  /\ LinearNet.init [4; -8; 1]%Z (2 # 10)%Q (3 # 2)%Q false 0
     = Raise ValueError.
Proof.
  split; [reflexivity|].
  exact (proj1 (proj2 (LinearNet_init_returns_iff
                         [4; -8; 1]%Z (2 # 10)%Q (3 # 2)%Q false 0))
           eq_refl).
Defined.

(** With no width or a single one, of any sign, no affine layer is built,
    nothing is allocated, and the forward pass hands back its input
    untouched, whatever its shape. *)
Theorem LinearNet_without_layers_is_identity :
  forall ws alpha p fl n,
    length ws <= 1 ->
    Qle_bool 0 p && Qle_bool p 1 = true ->
    exists self,
      LinearNet.init ws alpha p fl n = Ok (self, n)
      /\ LinearNet.net self = []
      /\ forall x, LinearNet.forward self x = Ok x.
Proof.
  intros ws alpha p fl n Hlen Hp.
  exists (LinearNet.Make fl alpha (nn.Dropout.Make p) []).
  rewrite LinearNet_init_spec, Hp.
  destruct ws as [|w [|w' ws]]; cbn in Hlen; try lia;
    cbn [widths_ok layers_of length Nat.sub]; rewrite Nat.add_0_r;
    repeat split.
Qed.

Lemma LinearNet_without_layers_is_identity_witness :
  length [(-7)%Z] <= 1
  /\ Qle_bool 0 0 && Qle_bool 0 1 = true
  /\ exists self,
      LinearNet.init [(-7)%Z] (2 # 10)%Q 0%Q false 0 = Ok (self, 0)
      /\ LinearNet.net self = []
      /\ forall x, LinearNet.forward self x = Ok x.
Proof.
  assert (H1 : length [(-7)%Z] <= 1) by (cbn; lia).
  split; [exact H1|split; [reflexivity|]].
  exact (LinearNet_without_layers_is_identity
           [(-7)%Z] (2 # 10)%Q 0%Q false 0 H1 eq_refl).
Defined.

Lemma Linear_forward_rejects (l : nn.Linear.t) (x : tensor) :
  shape x = [] \/ last (shape x) 0 <> nn.Linear.in_features l ->
  nn.Linear.forward l x = Raise RuntimeError.
Proof.
  intros H. unfold nn.Linear.forward.
  destruct (shape x) as [|d s] eqn:Hs; [reflexivity|].
  destruct H as [H|H]; [discriminate|].
  apply Nat.eqb_neq in H. now rewrite H.
Qed.

(** The forward pass of a [LinearNet] built from at least two widths
    returns exactly on the inputs whose trailing dimension is the first
    width; it keeps the leading dimensions and replaces the trailing one
    by the last width. *)
Theorem LinearNet_forward_maps_trailing_dimension :
  forall ws alpha p fl n self n' x,
    2 <= length ws ->
    LinearNet.init ws alpha p fl n = Ok (self, n') ->
    (forall lead,
        shape x = lead ++ [Z.to_nat (hd 0%Z ws)] ->
        exists out,
          LinearNet.forward self x = Ok out
          /\ shape out = lead ++ [Z.to_nat (last ws 0%Z)])
    /\ (forall out,
          LinearNet.forward self x = Ok out ->
          exists lead,
            shape x = lead ++ [Z.to_nat (hd 0%Z ws)]
            /\ shape out = lead ++ [Z.to_nat (last ws 0%Z)]).
Proof.
  intros ws alpha p fl n self n' x Hlen Hinit.
  apply LinearNet_init_inv in Hinit. subst self.
  destruct ws as [|a [|b ws]]; cbn in Hlen; try lia.
  pose proof (layers_of_chained (b :: ws) a n) as Hch.
  rewrite (last_cons_default (b :: ws) 0%Z a).
  cbn [hd]. split.
  - intros lead Hs. rewrite forward_dense_stack.
    cbn [LinearNet.net LinearNet.leaky_relu_alpha LinearNet.dropout
         LinearNet.final_linear].
    rewrite (dense_stack_ok _ _ _ _ _ _ lead x Hch Hs).
    eexists. split; reflexivity.
  - intros out H. rewrite forward_dense_stack in H.
    cbn [LinearNet.net LinearNet.leaky_relu_alpha LinearNet.dropout
         LinearNet.final_linear] in H.
    assert (Hs : shape x = removelast (shape x) ++ [Z.to_nat a]).
    { change (layers_of (a :: b :: ws) n)
        with (nn.Linear.Make n (Z.to_nat a) (Z.to_nat b)
                :: layers_of (b :: ws) (S n)) in H.
      cbn [dense_stack] in H.
      destruct (nn.Linear.forward _ x) as [y|e] eqn:Hl; [|discriminate].
      apply Linear_forward_inv in Hl. now destruct Hl as (_ & Hl & _). }
    rewrite (dense_stack_ok _ _ _ _ _ _ _ x Hch Hs) in H.
    inversion H; subst out. exists (removelast (shape x)).
    split; [exact Hs|reflexivity].
Qed.

Lemma LinearNet_forward_maps_trailing_dimension_witness :
  2 <= length [10; 20; 30; 1]%Z
  /\ LinearNet.init [10; 20; 30; 1]%Z (2 # 10)%Q 0%Q false 0
     = Ok (LinearNet.Make false (2 # 10)%Q (nn.Dropout.Make 0%Q)
             (layers_of [10; 20; 30; 1]%Z 0), 3)
  /\ shape (Tensor [16; 10] (EInput "x"%string))
     = [16] ++ [Z.to_nat (hd 0%Z [10; 20; 30; 1]%Z)]
  /\ exists out,
      LinearNet.forward
        (LinearNet.Make false (2 # 10)%Q (nn.Dropout.Make 0%Q)
           (layers_of [10; 20; 30; 1]%Z 0))
        (Tensor [16; 10] (EInput "x"%string)) = Ok out
      /\ shape out = [16] ++ [Z.to_nat (last [10; 20; 30; 1]%Z 0%Z)].
Proof.
  assert (H2 : 2 <= length [10; 20; 30; 1]%Z) by (cbn; lia).
  split; [exact H2|split; [reflexivity|split; [reflexivity|]]].
  exact (proj1 (LinearNet_forward_maps_trailing_dimension
                  [10; 20; 30; 1]%Z (2 # 10)%Q 0%Q false 0 _ 3
                  (Tensor [16; 10] (EInput "x"%string)) H2 eq_refl)
           [16] eq_refl).
Defined.

(** On a scalar tensor, or on one whose trailing dimension is not the
    first width, the forward pass of a [LinearNet] with at least one
    layer raises [RuntimeError], at its first affine transform. *)
Theorem LinearNet_forward_rejects_other_widths :
  forall ws alpha p fl n self n' x,
    2 <= length ws ->
    LinearNet.init ws alpha p fl n = Ok (self, n') ->
    shape x = [] \/ last (shape x) 0 <> Z.to_nat (hd 0%Z ws) ->
    LinearNet.forward self x = Raise RuntimeError.
Proof.
  intros ws alpha p fl n self n' x Hlen Hinit Hx.
  apply LinearNet_init_inv in Hinit. subst self.
  destruct ws as [|a [|b ws]]; cbn in Hlen; try lia.
  rewrite forward_dense_stack.
  cbn [LinearNet.net LinearNet.leaky_relu_alpha LinearNet.dropout
       LinearNet.final_linear].
  change (layers_of (a :: b :: ws) n)
    with (nn.Linear.Make n (Z.to_nat a) (Z.to_nat b)
            :: layers_of (b :: ws) (S n)).
  cbn [dense_stack]. now rewrite Linear_forward_rejects.
Qed.

Lemma LinearNet_forward_rejects_other_widths_witness :
  2 <= length [10; 20; 30; 1]%Z
  /\ LinearNet.init [10; 20; 30; 1]%Z (2 # 10)%Q 0%Q false 0
     = Ok (LinearNet.Make false (2 # 10)%Q (nn.Dropout.Make 0%Q)
             (layers_of [10; 20; 30; 1]%Z 0), 3)
  /\ LinearNet.forward
       (LinearNet.Make false (2 # 10)%Q (nn.Dropout.Make 0%Q)
          (layers_of [10; 20; 30; 1]%Z 0))
       (Tensor [16; 11] (EInput "x"%string))
     = Raise RuntimeError.
Proof.
  assert (H2 : 2 <= length [10; 20; 30; 1]%Z) by (cbn; lia).
  split; [exact H2|split; [reflexivity|]].
  apply (LinearNet_forward_rejects_other_widths
           [10; 20; 30; 1]%Z (2 # 10)%Q 0%Q false 0 _ 3
           (Tensor [16; 11] (EInput "x"%string)) H2 eq_refl).
  right. cbn. lia.
Defined.

(* ------------------------------------------------------------------ *)
(** * Further properties of MAB *)

(** Whenever the attention sub-layer returns, query and key are both
    batched or both unbatched, and both end in the embedding dimension. *)
Lemma MHA_forward_inv_shapes (a : nn.MultiheadAttention.t) (q k v : tensor) r :
  nn.MultiheadAttention.forward a q k v = Ok r ->
  (exists B L B' S,
      shape q = [B; L; nn.MultiheadAttention.embed_dim a]
      /\ shape k = [B'; S; nn.MultiheadAttention.embed_dim a])
  \/ (exists L S,
         shape q = [L; nn.MultiheadAttention.embed_dim a]
         /\ shape k = [S; nn.MultiheadAttention.embed_dim a]).
Proof.
  unfold nn.MultiheadAttention.forward. cbv zeta. intros H.
  destruct q as [sq vq], k as [sk vk], v as [sv vv].
  unfold ndim, TensorOps.transpose, TensorOps.unsqueeze, TensorOps.squeeze,
    ndim, wrap_dim, py_assert in H.
  cbn [shape val] in *.
  destruct (nn.MultiheadAttention.batch_first a);
    destruct sq as [|q0 [|q1 [|q2 [|q3 sq]]]];
    cbn [length Nat.eqb andb bind] in H; try discriminate;
    destruct sk as [|k0 [|k1 [|k2 [|k3 sk]]]];
    cbn -[numel list_eqb] in H; try discriminate;
    destruct sv as [|v0 [|v1 [|v2 [|v3 sv]]]];
    cbn -[numel list_eqb] in H; try discriminate;
    change (Pos.to_nat 1) with 1 in H; cbn -[numel list_eqb] in H;
    repeat match type of H with
      | context [if ?c then _ else _] =>
          let E := fresh "E" in
          destruct c eqn:E; cbn -[numel list_eqb] in H; try discriminate
      end;
    repeat match goal with
      | E : negb _ = false |- _ => apply negb_false_iff in E
      | E : (_ =? _) = true |- _ => apply Nat.eqb_eq in E; subst
      end;
    first [ left; do 4 eexists; split; reflexivity
          | right; do 2 eexists; split; reflexivity ].
Qed.

(** The forward pass of a constructed [MAB] returns only when [X] and [Y]
    are both batched or both unbatched and both end in the embedding
    dimension. *)
Theorem MAB_forward_returns_only_on_matching_inputs :
  forall e h ffo fl act ln p n self n' X Y out,
    MAB.init e h ffo fl act ln p n = Ok (self, n') ->
    MAB.forward self X Y = Ok out ->
    (exists B L B' S,
        shape X = [B; L; Z.to_nat e] /\ shape Y = [B'; S; Z.to_nat e])
    \/ (exists L S, shape X = [L; Z.to_nat e] /\ shape Y = [S; Z.to_nat e]).
Proof.
  intros e h ffo fl act ln p n self n' X Y out Hinit H.
  apply MAB_init_inv in Hinit.
  destruct Hinit as (_ & _ & _ & ff & _ & -> & _).
  unfold MAB.forward in H.
  destruct (nn.MultiheadAttention.forward _ X Y Y) as [r|] eqn:Hatt;
    [|discriminate].
  exact (MHA_forward_inv_shapes _ _ _ _ _ Hatt).
Qed.

Lemma MAB_forward_returns_only_on_matching_inputs_witness :
  MAB.init 10 2 (Some [10; 20; 10]%Z) true torch_softmax false (1 # 10)%Q 0
  = Ok (example_MAB 0, 5)
  /\ (exists out, MAB.forward (example_MAB 0) example_X example_X = Ok out)
  /\ ((exists B L B' S,
          shape example_X = [B; L; Z.to_nat 10]
          /\ shape example_X = [B'; S; Z.to_nat 10])
      \/ (exists L S,
             shape example_X = [L; Z.to_nat 10]
             /\ shape example_X = [S; Z.to_nat 10])).
Proof.
  assert (Hf : MAB.forward (example_MAB 0) example_X example_X
               = Ok (Tensor (shape example_X)
                       (spec_MAB (example_MAB 0) (val example_X)
                          (val example_X)))) by reflexivity.
  split; [reflexivity|split; [eexists; exact Hf|]].
  exact (MAB_forward_returns_only_on_matching_inputs
           10%Z 2%Z (Some [10; 20; 10]%Z) true torch_softmax false
           (1 # 10)%Q 0 (example_MAB 0) 5 example_X example_X _
           eq_refl Hf).
Defined.

Lemma MHA_forward_batched_query_unbatched_key
      (a : nn.MultiheadAttention.t) (q k v : tensor) :
  ndim q = 3 -> ndim k = 2 -> ndim v = 2 ->
  nn.MultiheadAttention.forward a q k v = Raise AssertionError.
Proof.
  intros Hq Hk Hv. unfold nn.MultiheadAttention.forward. cbv zeta.
  destruct q as [sq vq], k as [sk vk], v as [sv vv].
  unfold ndim in *. cbn [shape val] in *.
  destruct sq as [|q0 [|q1 [|q2 [|q3 sq]]]]; try discriminate.
  destruct sk as [|k0 [|k1 [|k2 sk]]]; try discriminate.
  destruct sv as [|v0 [|v1 [|v2 sv]]]; try discriminate.
  destruct (nn.MultiheadAttention.batch_first a); reflexivity.
Qed.

(** Whatever the block, a batched [X] with an unbatched [Y], or an
    unbatched [X] with a batched [Y], makes the forward pass raise
    [AssertionError]: nothing in [MAB.forward] brings the two to one
    layout before the attention sub-layer sees them. *)
Theorem MAB_forward_mixed_batching_raises :
  forall self X Y,
    (ndim X = 3 /\ ndim Y = 2) \/ (ndim X = 2 /\ ndim Y = 3) ->
    MAB.forward self X Y = Raise AssertionError.
Proof.
  intros self X Y [[HX HY]|[HX HY]]; unfold MAB.forward.
  - now rewrite MHA_forward_batched_query_unbatched_key.
  - now rewrite MHA_forward_unbatched_query_batched_key.
Qed.

Lemma MAB_forward_mixed_batching_raises_witness :
  ((ndim example_X = 3 /\ ndim example_Z = 2)
   \/ (ndim example_X = 2 /\ ndim example_Z = 3))
  /\ MAB.forward (example_MAB 0) example_X example_Z = Raise AssertionError.
Proof.
  assert (H : (ndim example_X = 3 /\ ndim example_Z = 2)
              \/ (ndim example_X = 2 /\ ndim example_Z = 3))
    by (left; split; reflexivity).
  split; [exact H|].
  exact (MAB_forward_mixed_batching_raises
           (example_MAB 0) example_X example_Z H).
Defined.

(** The [activation_function] argument of [MAB] is stored and never
    used: two blocks constructed alike but for it compute the same on
    every input, errors included. *)
Theorem MAB_forward_ignores_activation_function :
  forall e h ffo fl (f g : callable) ln p n s1 n1,
    MAB.init e h ffo fl f ln p n = Ok (s1, n1) ->
    exists s2,
      MAB.init e h ffo fl g ln p n = Ok (s2, n1)
      /\ MAB.activation_function s1 = f
      /\ MAB.activation_function s2 = g
      /\ forall X Y, MAB.forward s1 X Y = MAB.forward s2 X Y.
Proof.
  intros e h ffo fl f g ln p n s1 n1 H.
  pose proof H as Hs. rewrite MAB_init_spec in Hs.
  apply MAB_init_inv in H.
  destruct H as (_ & _ & _ & ff & -> & -> & ->).
  exists (built_MAB e h ff fl g ln p n).
  rewrite MAB_init_spec.
  destruct (h =? 0)%Z; [discriminate|].
  destruct (negb (e mod h =? 0)%Z); [discriminate|].
  destruct ((e <=? 0) || (h <=? 0))%Z; [discriminate|].
  destruct (forallb _ ff); [|discriminate].
  destruct (Qle_bool 0 p && Qle_bool p 1); [|discriminate].
  repeat split.
Qed.

Lemma MAB_forward_ignores_activation_function_witness :
  MAB.init 10 2 (Some [10; 20; 10]%Z) true torch_softmax false (1 # 10)%Q 0
  = Ok (example_MAB 0, 5)
  /\ exists s2,
      MAB.init 10 2 (Some [10; 20; 10]%Z) true softmax_last_axis false
        (1 # 10)%Q 0 = Ok (s2, 5)
      /\ forall X Y, MAB.forward (example_MAB 0) X Y = MAB.forward s2 X Y.
Proof.
  split; [reflexivity|].
  destruct (MAB_forward_ignores_activation_function
              10%Z 2%Z (Some [10; 20; 10]%Z) true torch_softmax
              softmax_last_axis false (1 # 10)%Q 0 (example_MAB 0) 5 eq_refl)
    as (s2 & H1 & _ & _ & H2).
  exists s2. split; assumption.
Defined.

Lemma MHA_forward_wrong_query_dim (a : nn.MultiheadAttention.t)
      (q k : tensor) (B L D B' S D' : nat) :
  nn.MultiheadAttention.batch_first a = true ->
  shape q = [B; L; D] ->
  shape k = [B'; S; D'] ->
  D <> nn.MultiheadAttention.embed_dim a ->
  nn.MultiheadAttention.forward a q k k = Raise AssertionError.
Proof.
  intros Hb Hq Hk HD. unfold nn.MultiheadAttention.forward.
  assert (Hn : ndim q = 3) by (unfold ndim; now rewrite Hq).
  cbv zeta. rewrite Hb, !Hn. cbn [Nat.eqb andb].
  rewrite (transpose_1_0 q _ _ _ Hq), (transpose_1_0 k _ _ _ Hk).
  cbn [bind ndim shape length Nat.eqb andb py_assert].
  apply Nat.eqb_neq in HD. now rewrite HD.
Qed.

Lemma MHA_forward_wrong_key_dim (a : nn.MultiheadAttention.t)
      (q k : tensor) (B L B' S D' : nat) :
  nn.MultiheadAttention.batch_first a = true ->
  shape q = [B; L; nn.MultiheadAttention.embed_dim a] ->
  shape k = [B'; S; D'] ->
  D' <> nn.MultiheadAttention.embed_dim a ->
  nn.MultiheadAttention.forward a q k k = Raise RuntimeError.
Proof.
  intros Hb Hq Hk HD. unfold nn.MultiheadAttention.forward.
  assert (Hn : ndim q = 3) by (unfold ndim; now rewrite Hq).
  cbv zeta. rewrite Hb, !Hn. cbn [Nat.eqb andb].
  rewrite (transpose_1_0 q _ _ _ Hq), (transpose_1_0 k _ _ _ Hk).
  cbn [bind ndim shape length Nat.eqb andb py_assert].
  rewrite Nat.eqb_refl, list_eqb_refl. cbn [py_assert bind].
  apply Nat.eqb_neq in HD. now rewrite HD.
Qed.

(** On batched inputs a constructed [MAB] raises [AssertionError] when
    the trailing dimension of the query [X] is not the embedding
    dimension, and [RuntimeError] when that of [X] is right and that of
    [Y] is not. *)
Theorem MAB_forward_rejects_other_embedding_dimensions :
  forall e h ffo fl act ln p n self n' X Y (B L D B' S D' : nat),
    MAB.init e h ffo fl act ln p n = Ok (self, n') ->
    shape X = [B; L; D] ->
    shape Y = [B'; S; D'] ->
    (D <> Z.to_nat e -> MAB.forward self X Y = Raise AssertionError)
    /\ (D = Z.to_nat e -> D' <> Z.to_nat e ->
        MAB.forward self X Y = Raise RuntimeError).
Proof.
  intros e h ffo fl act ln p n self n' X Y B L D B' S D' Hinit HX HY.
  apply MAB_init_inv in Hinit.
  destruct Hinit as (_ & _ & _ & ff & _ & -> & _).
  unfold MAB.forward. split.
  - intros HD.
    erewrite MHA_forward_wrong_query_dim
      by (first [exact HX|exact HY|exact HD|reflexivity]).
    reflexivity.
  - intros -> HD'.
    erewrite MHA_forward_wrong_key_dim
      by (first [exact HX|exact HY|exact HD'|reflexivity]).
    reflexivity.
Qed.

Lemma MAB_forward_rejects_other_embedding_dimensions_witness :
  MAB.init 10 2 (Some [10; 20; 10]%Z) true torch_softmax false (1 # 10)%Q 0
  = Ok (example_MAB 0, 5)
  /\ shape (Tensor [16; 30; 12] (EInput "X"%string)) = [16; 30; 12]
  /\ shape example_X = [16; 30; 10]
  /\ 12 <> Z.to_nat 10
  /\ MAB.forward (example_MAB 0) (Tensor [16; 30; 12] (EInput "X"%string))
       example_X
     = Raise AssertionError.
Proof.
  assert (H : 12 <> Z.to_nat 10) by (cbn; lia).
  split; [reflexivity|split; [reflexivity|split; [reflexivity|]]].
  split; [exact H|].
  exact (proj1 (MAB_forward_rejects_other_embedding_dimensions
                  10%Z 2%Z (Some [10; 20; 10]%Z) true torch_softmax false
                  (1 # 10)%Q 0 (example_MAB 0) 5
                  (Tensor [16; 30; 12] (EInput "X"%string)) example_X
                  16 30 12 16 30 10 eq_refl eq_refl eq_refl) H).
Defined.

(** ** Construction *)

(** [MAB.__init__] returns exactly when the embedding dimension and the
    head count are positive, the head count divides the embedding
    dimension, [ff_layers] is a list of non-negative widths and the
    dropout probability lies in [0, 1]. *)
Theorem MAB_init_returns_iff :
  forall e h ffo fl act ln p n,
    is_ok (MAB.init e h ffo fl act ln p n) = true
    <-> ((0 < e)%Z /\ (0 < h)%Z /\ (h | e)%Z
         /\ exists ff,
             ffo = Some ff
             /\ forallb (fun z => (0 <=? z)%Z) ff = true
             /\ Qle_bool 0 p && Qle_bool p 1 = true).
Proof.
  intros e h ffo fl act ln p n. rewrite MAB_init_spec. split.
  - intros H.
    destruct (Z.eqb_spec h 0) as [|Hh]; [discriminate|].
    destruct (Z.eqb_spec (e mod h) 0) as [Hm|]; [|discriminate].
    cbn [negb] in H.
    destruct ((e <=? 0) || (h <=? 0))%Z eqn:Hpos; [discriminate|].
    apply orb_false_elim in Hpos. destruct Hpos as [He Hh'].
    apply Z.leb_gt in He, Hh'.
    destruct ffo as [ff|]; [|discriminate].
    destruct (forallb _ ff) eqn:Hff; [|discriminate].
    destruct (Qle_bool 0 p && Qle_bool p 1) eqn:Hp; [|discriminate].
    repeat (split; [assumption|]). split.
    + now apply Z.mod_divide.
    + exists ff. repeat split; assumption.
  - intros (He & Hh & Hd & ff & -> & Hff & Hp).
    assert (Hh0 : h <> 0%Z) by lia.
    apply (Z.mod_divide e h Hh0) in Hd.
    destruct (Z.eqb_spec h 0) as [|_]; [contradiction|].
    rewrite Hd. cbn [Z.eqb negb].
    replace ((e <=? 0) || (h <=? 0))%Z with false.
    2:{ symmetry. apply orb_false_intro; apply Z.leb_gt; assumption. }
    now rewrite Hff, Hp.
Qed.

Lemma MAB_init_returns_iff_witness :
  is_ok (MAB.init 10 2 (Some [20]%Z) true torch_softmax false (1 # 10)%Q 0)
  = true
  /\ (0 < 10)%Z /\ (0 < 2)%Z /\ (2 | 10)%Z.
Proof.
  split; [reflexivity|].
  destruct (proj1 (MAB_init_returns_iff
                     10%Z 2%Z (Some [20]%Z) true torch_softmax false
                     (1 # 10)%Q 0) eq_refl)
    as (He & Hh & Hd & _).
  split; [exact He|split; [exact Hh|exact Hd]].
Defined.

(** The feed-forward stack of a constructed [MAB] has one affine layer
    more than [ff_layers] has entries, leads from the embedding dimension
    back to it, and takes [final_linear] from the block; its rectifier
    slope and its dropout probability are the defaults of [LinearNet]
    (0.2 and 0), so the [dropout] argument of the block reaches only the
    dropout after the two residuals. *)
Theorem MAB_init_feedforward_structure :
  forall e h ffo fl act ln p n self n',
    MAB.init e h ffo fl act ln p n = Ok (self, n') ->
    exists ff,
      ffo = Some ff
      /\ length (LinearNet.net (MAB.feedforward self)) = length ff + 1
      /\ chained (LinearNet.net (MAB.feedforward self))
           (Z.to_nat e) (Z.to_nat e)
      /\ LinearNet.final_linear (MAB.feedforward self) = fl
      /\ LinearNet.leaky_relu_alpha (MAB.feedforward self) = (2 # 10)%Q
      /\ nn.Dropout.p (LinearNet.dropout (MAB.feedforward self)) = 0%Q
      /\ nn.Dropout.p (MAB.dropout self) = p.
Proof.
  intros e h ffo fl act ln p n self n' Hinit.
  apply MAB_init_inv in Hinit.
  destruct Hinit as (_ & _ & _ & ff & -> & -> & _).
  exists ff. split; [reflexivity|].
  pose proof (built_MAB_wf e h ff fl act ln p n) as (_ & _ & _ & Hch).
  split; [|split; [exact Hch|repeat split]].
  cbn [built_MAB MAB.feedforward LinearNet.net].
  rewrite layers_of_length, !length_app. cbn [length]. lia.
Qed.

Lemma MAB_init_feedforward_structure_witness :
  MAB.init 10 2 (Some [10; 20; 10]%Z) true torch_softmax false (1 # 2)%Q 0
  = Ok (built_MAB 10 2 [10; 20; 10]%Z true torch_softmax false (1 # 2)%Q 0, 5)
  /\ nn.Dropout.p
       (LinearNet.dropout
          (MAB.feedforward
             (built_MAB 10 2 [10; 20; 10]%Z true torch_softmax false
                (1 # 2)%Q 0)))
     = 0%Q.
Proof.
  split; [reflexivity|].
  destruct (MAB_init_feedforward_structure
              10%Z 2%Z (Some [10; 20; 10]%Z) true torch_softmax false
              (1 # 2)%Q 0 _ 5 eq_refl)
    as (ff & _ & _ & _ & _ & _ & H & _).
  exact H.
Defined.

(** ** Module identities *)

Lemma layers_of_ids :
  forall ws m, map nn.Linear.id (layers_of ws m) = seq m (length ws - 1).
Proof.
  induction ws as [|a ws IH]; intros m; [reflexivity|].
  destruct ws as [|b ws]; [reflexivity|].
  change (layers_of (a :: b :: ws) m)
    with (nn.Linear.Make m (Z.to_nat a) (Z.to_nat b)
            :: layers_of (b :: ws) (S m)).
  cbn [map nn.Linear.id]. rewrite (IH (S m)).
  replace (length (a :: b :: ws) - 1) with (S (length (b :: ws) - 1))
    by (cbn [length]; lia).
  reflexivity.
Qed.

Lemma built_MAB_module_ids e h ff fl act ln p n :
  module_ids (built_MAB e h ff fl act ln p n)
  = seq n ((if ln then S (S n) else S n) + (length ff + 1) - n).
Proof.
  unfold module_ids, built_MAB.
  cbn [MAB.attention MAB.layer_norm MAB.feedforward LinearNet.net
       nn.MultiheadAttention.id].
  rewrite layers_of_ids, !length_app. cbn [length].
  replace (1 + length ff + 1 - 1) with (length ff + 1) by lia.
  destruct ln; cbn [nn.LayerNorm.id app].
  - replace (S (S n) + (length ff + 1) - n) with (S (S (length ff + 1)))
      by lia.
    reflexivity.
  - replace (S n + (length ff + 1) - n) with (S (length ff + 1)) by lia.
    reflexivity.
Qed.

Lemma MAB_init_kw_ids (E : Z) (kw : MAB.kwargs) n self n' :
  MAB.init_kw E kw n = Ok (self, n') ->
  module_ids self = seq n (n' - n) /\ n < n'.
Proof.
  unfold MAB.init_kw. destruct (MAB.kw_num_heads kw) as [h|]; [|discriminate].
  intros H. apply MAB_init_inv in H.
  destruct H as (_ & _ & _ & ff & _ & -> & ->).
  split; [apply built_MAB_module_ids|]. destruct (MAB.default _ _); lia.
Qed.

(** The learnable sub-modules of a constructed [MAB] are exactly the
    objects allocated during its construction, each once: the attention
    sub-layer, the normalization when enabled, and the affine layers. *)
Theorem MAB_init_modules_are_fresh_and_distinct :
  forall e h ffo fl act ln p n self n',
    MAB.init e h ffo fl act ln p n = Ok (self, n') ->
    module_ids self = seq n (n' - n)
    /\ NoDup (module_ids self)
    /\ (forall i, In i (module_ids self) -> n <= i < n').
Proof.
  intros e h ffo fl act ln p n self n' H. apply MAB_init_inv in H.
  destruct H as (_ & _ & _ & ff & _ & -> & ->).
  rewrite built_MAB_module_ids. split; [reflexivity|].
  split; [apply seq_NoDup|]. intros i Hi. apply in_seq in Hi. lia.
Qed.

Lemma MAB_init_modules_are_fresh_and_distinct_witness :
  MAB.init 10 2 (Some [20]%Z) true torch_softmax true (1 # 10)%Q 7
  = Ok (built_MAB 10 2 [20]%Z true torch_softmax true (1 # 10)%Q 7, 11)
  /\ module_ids (built_MAB 10 2 [20]%Z true torch_softmax true (1 # 10)%Q 7)
     = seq 7 (11 - 7).
Proof.
  split; [reflexivity|].
  exact (proj1 (MAB_init_modules_are_fresh_and_distinct
                  10%Z 2%Z (Some [20]%Z) true torch_softmax true (1 # 10)%Q 7
                  _ 11 eq_refl)).
Defined.

(** The two blocks of a constructed [IPAB] are independent modules: no
    learnable sub-module of one is a sub-module of the other. *)
Theorem IPAB_init_blocks_are_independent :
  forall E kw n self n',
    IPAB.init E kw n = Ok (self, n') ->
    IPAB.embed_dim self = E
    /\ module_ids (IPAB.mab1 self) ++ module_ids (IPAB.mab2 self)
       = seq n (n' - n)
    /\ NoDup (module_ids (IPAB.mab1 self) ++ module_ids (IPAB.mab2 self))
    /\ (forall i, In i (module_ids (IPAB.mab1 self)) ->
                  ~ In i (module_ids (IPAB.mab2 self))).
Proof.
  intros E kw n self n'. unfold IPAB.init, cbind at 1.
  destruct (MAB.init_kw E kw n) as [[m1 n1]|] eqn:H1; [|discriminate].
  unfold cbind at 1.
  destruct (MAB.init_kw E kw n1) as [[m2 n2]|] eqn:H2; [|discriminate].
  apply MAB_init_kw_ids in H1, H2.
  destruct H1 as [H1 L1], H2 as [H2 L2]. unfold cret.
  intros H. inversion H; subst. cbn [IPAB.embed_dim IPAB.mab1 IPAB.mab2].
  split; [reflexivity|].
  assert (Happ : module_ids m1 ++ module_ids m2 = seq n (n' - n)).
  { rewrite H1, H2. replace (n' - n) with ((n1 - n) + (n' - n1)) by lia.
    rewrite seq_app. do 2 f_equal. lia. }
  split; [exact Happ|]. split; [rewrite Happ; apply seq_NoDup|].
  intros i Hi1 Hi2. rewrite H1 in Hi1. rewrite H2 in Hi2.
  apply in_seq in Hi1, Hi2. lia.
Qed.

Lemma IPAB_init_blocks_are_independent_witness :
  IPAB.init 10 example_kwargs 0 = Ok (example_IPAB, 10)
  /\ NoDup (module_ids (IPAB.mab1 example_IPAB)
            ++ module_ids (IPAB.mab2 example_IPAB)).
Proof.
  split; [reflexivity|].
  exact (proj1 (proj2 (proj2
           (IPAB_init_blocks_are_independent
              10%Z example_kwargs 0 example_IPAB 10 eq_refl)))).
Defined.

(** A constructed [ISAB] holds two independent blocks and, apart from
    them, its inducing points: a fresh parameter of shape
    [(m_induce, embed_dim)] with a non-negative [m_induce]. *)
Theorem ISAB_init_blocks_and_inducing_points :
  forall m E kw n self n',
    ISAB.init m E kw n = Ok (self, n') ->
    ISAB.m self = m
    /\ (0 <= m)%Z
    /\ ISAB.I self = Tensor [Z.to_nat m; Z.to_nat E] (EParam (n' - 1))
    /\ module_ids (ISAB.mab1 self) ++ module_ids (ISAB.mab2 self)
       = seq n (n' - 1 - n)
    /\ NoDup ((n' - 1) :: module_ids (ISAB.mab1 self)
                ++ module_ids (ISAB.mab2 self)).
Proof.
  intros m E kw n self n'. unfold ISAB.init, cbind at 1.
  destruct (MAB.init_kw E kw n) as [[m1 n1]|] eqn:H1; [|discriminate].
  unfold cbind at 1.
  destruct (MAB.init_kw E kw n1) as [[m2 n2]|] eqn:H2; [|discriminate].
  apply MAB_init_kw_ids in H1, H2.
  destruct H1 as [H1 L1], H2 as [H2 L2].
  unfold cbind at 1, torch.randn, torch.empty. cbn [forallb].
  destruct (Z.leb_spec 0 m) as [Hm|Hm]; [|discriminate].
  destruct (0 <=? E)%Z; [|discriminate]. cbn [andb].
  unfold cbind, fresh, cret. intros H. inversion H; subst.
  cbn [ISAB.m ISAB.I ISAB.mab1 ISAB.mab2 map].
  replace (S n2 - 1) with n2 by lia.
  split; [reflexivity|]. split; [exact Hm|]. split; [reflexivity|].
  assert (Happ : module_ids m1 ++ module_ids m2 = seq n (n2 - n)).
  { rewrite H1, H2. replace (n2 - n) with ((n1 - n) + (n2 - n1)) by lia.
    rewrite seq_app. do 2 f_equal. lia. }
  split; [exact Happ|]. rewrite Happ. constructor; [|apply seq_NoDup].
  intros Hin. apply in_seq in Hin. lia.
Qed.

Lemma ISAB_init_blocks_and_inducing_points_witness :
  ISAB.init 4 10 example_kwargs 0 = Ok (example_ISAB, 11)
  /\ ISAB.I example_ISAB = Tensor [Z.to_nat 4; Z.to_nat 10] (EParam (11 - 1)).
Proof.
  split; [reflexivity|].
  exact (proj1 (proj2 (proj2
           (ISAB_init_blocks_and_inducing_points
              4%Z 10%Z example_kwargs 0 example_ISAB 11 eq_refl)))).
Defined.

(** A constructed [PMA] holds its block and, apart from it, the seed
    tensor: a fresh parameter of shape [(1, seed_count, embed_dims)] with
    a non-negative [seed_count]. *)
Theorem PMA_init_block_and_seeds :
  forall E k kw n self n',
    PMA.init E k kw n = Ok (self, n') ->
    PMA.seed_count self = k
    /\ (0 <= k)%Z
    /\ PMA.S self = Tensor [1; Z.to_nat k; Z.to_nat E] (EParam (n' - 1))
    /\ module_ids (PMA.mab self) = seq n (n' - 1 - n)
    /\ ~ In (n' - 1) (module_ids (PMA.mab self)).
Proof.
  intros E k kw n self n'. unfold PMA.init, cbind at 1.
  destruct (MAB.init_kw E kw n) as [[mab n1]|] eqn:H1; [|discriminate].
  apply MAB_init_kw_ids in H1. destruct H1 as [H1 L1].
  unfold cbind at 1, torch.empty. cbn [forallb].
  destruct (Z.leb_spec 0 k) as [Hk|Hk]; [|discriminate].
  destruct (0 <=? E)%Z; [|discriminate]. cbn [andb].
  unfold cbind at 1, fresh, cret at 1.
  unfold cbind, lift, nn.init.xavier_uniform_, cret. intros H.
  cbn in H. inversion H; subst.
  cbn [PMA.seed_count PMA.S PMA.mab].
  replace (S n1 - 1) with n1 by lia.
  split; [reflexivity|]. split; [exact Hk|]. split; [reflexivity|].
  split; [exact H1|]. rewrite H1. intros Hin. apply in_seq in Hin. lia.
Qed.

Lemma PMA_init_block_and_seeds_witness :
  PMA.init 10 4 example_kwargs 0 = Ok (example_PMA, 6)
  /\ PMA.S example_PMA = Tensor [1; Z.to_nat 4; Z.to_nat 10] (EParam (6 - 1)).
Proof.
  split; [reflexivity|].
  exact (proj1 (proj2 (proj2
           (PMA_init_block_and_seeds
              10%Z 4%Z example_kwargs 0 example_PMA 6 eq_refl)))).
Defined.

(* ------------------------------------------------------------------ *)
(** * Further properties of PMA, ISAB and IPAB *)

Lemma MAB_init_kw_requires (E : Z) (kw : MAB.kwargs) n r :
  MAB.init_kw E kw n = Ok r ->
  exists h ff,
    MAB.kw_num_heads kw = Some h
    /\ MAB.kw_ff_layers kw = Some ff
    /\ (0 < E)%Z /\ (0 < h)%Z /\ (h | E)%Z.
Proof.
  unfold MAB.init_kw. destruct (MAB.kw_num_heads kw) as [h|]; [|discriminate].
  destruct r as [self n']. intros H. apply MAB_init_inv in H.
  destruct H as (HE & Hh & Hm & ff & Hff & _).
  exists h, ff. repeat (split; [assumption || reflexivity|]).
  apply Z.mod_divide; [lia|assumption].
Qed.

(** [PMA], [ISAB] and [IPAB] hand their keyword arguments to
    [MAB.__init__] and inherit its preconditions: a construction that
    returns was given [num_heads] and a list for [ff_layers], with a
    positive head count dividing a positive embedding dimension; and a
    construction without [num_heads] raises [TypeError]. *)
Theorem wrappers_inherit_MAB_preconditions :
  (forall E k kw n r,
      PMA.init E k kw n = Ok r ->
      exists h ff,
        MAB.kw_num_heads kw = Some h /\ MAB.kw_ff_layers kw = Some ff
        /\ (0 < E)%Z /\ (0 < h)%Z /\ (h | E)%Z)
  /\ (forall m E kw n r,
        ISAB.init m E kw n = Ok r ->
        exists h ff,
          MAB.kw_num_heads kw = Some h /\ MAB.kw_ff_layers kw = Some ff
          /\ (0 < E)%Z /\ (0 < h)%Z /\ (h | E)%Z)
  /\ (forall E kw n r,
        IPAB.init E kw n = Ok r ->
        exists h ff,
          MAB.kw_num_heads kw = Some h /\ MAB.kw_ff_layers kw = Some ff
          /\ (0 < E)%Z /\ (0 < h)%Z /\ (h | E)%Z)
  /\ (forall m E k kw n,
        MAB.kw_num_heads kw = None ->
        PMA.init E k kw n = Raise TypeError
        /\ ISAB.init m E kw n = Raise TypeError
        /\ IPAB.init E kw n = Raise TypeError).
Proof.
  split; [|split; [|split]].
  - intros E k kw n r. unfold PMA.init, cbind at 1.
    destruct (MAB.init_kw E kw n) as [r1|] eqn:H1; [|discriminate].
    intros _. exact (MAB_init_kw_requires E kw n r1 H1).
  - intros m E kw n r. unfold ISAB.init, cbind at 1.
    destruct (MAB.init_kw E kw n) as [r1|] eqn:H1; [|discriminate].
    intros _. exact (MAB_init_kw_requires E kw n r1 H1).
  - intros E kw n r. unfold IPAB.init, cbind at 1.
    destruct (MAB.init_kw E kw n) as [r1|] eqn:H1; [|discriminate].
    intros _. exact (MAB_init_kw_requires E kw n r1 H1).
  - intros m E k kw n Hnone.
    unfold PMA.init, ISAB.init, IPAB.init, cbind, MAB.init_kw.
    rewrite Hnone. repeat split.
Qed.

Lemma wrappers_inherit_MAB_preconditions_witness :
  IPAB.init 10 example_kwargs 0 = Ok (example_IPAB, 10)
  /\ exists h ff,
      MAB.kw_num_heads example_kwargs = Some h
      /\ MAB.kw_ff_layers example_kwargs = Some ff
      /\ (0 < 10)%Z /\ (0 < h)%Z /\ (h | 10)%Z.
Proof.
  split; [reflexivity|].
  exact (proj1 (proj2 (proj2 wrappers_inherit_MAB_preconditions))
           10%Z example_kwargs 0 (example_IPAB, 10) eq_refl).
Defined.

(** On a batched input and a matching latent vector, a constructed
    [IPAB] first lets the latent vector, given a set dimension of length
    one, attend into [X] through the first block; the second block then
    lets [X] attend into that updated latent, not into the one passed in;
    and the latent handed back is the updated one without its set
    dimension. *)
Theorem IPAB_forward_threads_updated_latent :
  forall (E : Z) kw n self n' X Z (B N : nat),
    IPAB.init E kw n = Ok (self, n') ->
    shape X = [B; N; Z.to_nat E] ->
    shape Z = [B; Z.to_nat E] ->
    IPAB.forward self X Z
    = Ok (Tensor [B; N; Z.to_nat E]
            (spec_MAB (IPAB.mab2 self) (val X)
               (spec_MAB (IPAB.mab1 self) (EUnsqueeze 1 (val Z)) (val X))),
          Tensor [B; Z.to_nat E]
            (ESqueeze 1
               (spec_MAB (IPAB.mab1 self) (EUnsqueeze 1 (val Z)) (val X)))).
Proof.
  intros E kw n self n' X Z B N Hinit HX HZ.
  apply IPAB_init_inv in Hinit. destruct Hinit as [H1 H2].
  unfold IPAB.forward.
  rewrite (unsqueeze_1 Z B _ HZ). cbn [bind].
  rewrite (MAB_forward_ok (Z.to_nat E) (IPAB.mab1 self));
    [|exact H1|left; exists B, 1, N; split; [reflexivity|exact HX]].
  cbn [bind shape val].
  rewrite (MAB_forward_ok (Z.to_nat E) (IPAB.mab2 self));
    [|exact H2|left; exists B, N, 1; split; [exact HX|reflexivity]].
  cbn [bind shape val]. erewrite squeeze_1 by reflexivity.
  cbn [bind val]. now rewrite HX.
Qed.

Lemma IPAB_forward_threads_updated_latent_witness :
  IPAB.init 10 example_kwargs 0 = Ok (example_IPAB, 10)
  /\ shape example_X = [16; 30; Z.to_nat 10]
  /\ shape example_Z = [16; Z.to_nat 10]
  /\ IPAB.forward example_IPAB example_X example_Z
     = Ok (Tensor [16; 30; Z.to_nat 10]
             (spec_MAB (IPAB.mab2 example_IPAB) (val example_X)
                (spec_MAB (IPAB.mab1 example_IPAB)
                   (EUnsqueeze 1 (val example_Z)) (val example_X))),
           Tensor [16; Z.to_nat 10]
             (ESqueeze 1
                (spec_MAB (IPAB.mab1 example_IPAB)
                   (EUnsqueeze 1 (val example_Z)) (val example_X)))).
Proof.
  split; [reflexivity|split; [reflexivity|split; [reflexivity|]]].
  exact (IPAB_forward_threads_updated_latent
           10%Z example_kwargs 0 example_IPAB 10 example_X example_Z 16 30
           eq_refl eq_refl eq_refl).
Defined.

Lemma unsqueeze_1_ndim (t : tensor) :
  1 <= ndim t ->
  exists t', TensorOps.unsqueeze t 1 = Ok t' /\ ndim t' = S (ndim t).
Proof.
  intros Hn. unfold TensorOps.unsqueeze, wrap_dim.
  replace ((- Z.of_nat (S (ndim t)) <=? 1)%Z && (1 <? Z.of_nat (S (ndim t)))%Z)
    with true.
  2:{ symmetry. apply andb_true_intro.
      split; [apply Z.leb_le|apply Z.ltb_lt]; lia. }
  cbn [bind Z.ltb Z.compare]. eexists. split; [reflexivity|].
  unfold ndim in *. cbn [shape]. change (Z.to_nat 1) with 1.
  rewrite length_app. cbn [length].
  rewrite Nat.add_succ_r, <- length_app, firstn_skipn. reflexivity.
Qed.

Lemma MHA_forward_high_rank_query (a : nn.MultiheadAttention.t)
      (q k v : tensor) :
  4 <= ndim q ->
  nn.MultiheadAttention.forward a q k v = Raise AssertionError.
Proof.
  intros Hq. unfold nn.MultiheadAttention.forward. cbv zeta.
  replace (ndim q =? 3) with false by (symmetry; apply Nat.eqb_neq; lia).
  rewrite andb_false_r. cbn [bind].
  replace (ndim q =? 3) with false by (symmetry; apply Nat.eqb_neq; lia).
  replace (ndim q =? 2) with false by (symmetry; apply Nat.eqb_neq; lia).
  reflexivity.
Qed.

(** The latent vector of [IPAB.forward] has to be a matrix: with a
    batched [X], a scalar latent raises [IndexError] when it is given its
    set dimension, and a latent of one dimension, or of three or more,
    raises [AssertionError] in the first block. *)
Theorem IPAB_forward_rejects_latents_that_are_not_matrices :
  forall self X Z,
    ndim X = 3 ->
    (ndim Z = 0 -> IPAB.forward self X Z = Raise IndexError)
    /\ (ndim Z = 1 \/ 3 <= ndim Z ->
        IPAB.forward self X Z = Raise AssertionError).
Proof.
  intros self X Z HX. split.
  - intros HZ. unfold IPAB.forward, TensorOps.unsqueeze. now rewrite HZ.
  - intros HZ.
    destruct (unsqueeze_1_ndim Z) as (Zu & Hu & Hn); [lia|].
    unfold IPAB.forward. rewrite Hu. cbn [bind]. unfold MAB.forward.
    destruct HZ as [HZ|HZ].
    + rewrite MHA_forward_unbatched_query_batched_key;
        [reflexivity|lia|exact HX].
    + rewrite MHA_forward_high_rank_query; [reflexivity|lia].
Qed.

Lemma IPAB_forward_rejects_latents_that_are_not_matrices_witness :
  ndim example_X = 3
  /\ (ndim (Tensor [16; 1; 10] (EInput "Z"%string)) = 1
      \/ 3 <= ndim (Tensor [16; 1; 10] (EInput "Z"%string)))
  /\ IPAB.forward example_IPAB example_X
       (Tensor [16; 1; 10] (EInput "Z"%string))
     = Raise AssertionError.
Proof.
  assert (H : ndim (Tensor [16; 1; 10] (EInput "Z"%string)) = 1
              \/ 3 <= ndim (Tensor [16; 1; 10] (EInput "Z"%string)))
    by (right; cbn; lia).
  split; [reflexivity|split; [exact H|]].
  exact (proj2 (IPAB_forward_rejects_latents_that_are_not_matrices
                  example_IPAB example_X
                  (Tensor [16; 1; 10] (EInput "Z"%string)) eq_refl) H).
Defined.

(** On an unbatched set [X] of shape [(n, embed_dim)] a constructed
    [ISAB] returns: the inducing points attend into [X] through the first
    block, [X] attends into the result through the second, and the output
    has the shape of [X], for every number of inducing points. *)
Theorem ISAB_forward_on_unbatched_set :
  forall (m E : Z) kw n self n' X (N : nat),
    ISAB.init m E kw n = Ok (self, n') ->
    shape X = [N; Z.to_nat E] ->
    ISAB.forward self X
    = Ok (Tensor (shape X)
            (spec_MAB (ISAB.mab2 self) (val X)
               (spec_MAB (ISAB.mab1 self) (val (ISAB.I self)) (val X)))).
Proof.
  intros m E kw n self n' X N Hinit HX. apply ISAB_init_inv in Hinit.
  destruct Hinit as (H1 & H2 & HI). unfold ISAB.forward.
  rewrite (MAB_forward_ok (Z.to_nat E) (ISAB.mab1 self));
    [|exact H1|right; exists (Z.to_nat m), N; split; [exact HI|exact HX]].
  cbn [bind].
  rewrite (MAB_forward_ok (Z.to_nat E) (ISAB.mab2 self));
    [|exact H2|right; exists N, (Z.to_nat m); split; [exact HX|exact HI]].
  reflexivity.
Qed.

Lemma ISAB_forward_on_unbatched_set_witness :
  ISAB.init 4 10 example_kwargs 0 = Ok (example_ISAB, 11)
  /\ shape (Tensor [30; 10] (EInput "X"%string)) = [30; Z.to_nat 10]
  /\ ISAB.forward example_ISAB (Tensor [30; 10] (EInput "X"%string))
     = Ok (Tensor [30; 10]
             (spec_MAB (ISAB.mab2 example_ISAB) (EInput "X"%string)
                (spec_MAB (ISAB.mab1 example_ISAB)
                   (val (ISAB.I example_ISAB)) (EInput "X"%string)))).
Proof.
  split; [reflexivity|split; [reflexivity|]].
  exact (ISAB_forward_on_unbatched_set
           4%Z 10%Z example_kwargs 0 example_ISAB 11
           (Tensor [30; 10] (EInput "X"%string)) 30 eq_refl eq_refl).
Defined.

(** A constructed [PMA] returns only on batched inputs ending in the
    embedding dimension: the seeds are always repeated into a batched
    query, so an unbatched set raises [AssertionError] in the block, and
    a scalar raises [IndexError] when its batch size is read. *)
Theorem PMA_forward_accepts_only_batched_input :
  forall (E k : Z) kw n self n' X,
    PMA.init E k kw n = Ok (self, n') ->
    (forall out,
        PMA.forward self X = Ok out ->
        exists B N, shape X = [B; N; Z.to_nat E])
    /\ (ndim X = 2 -> PMA.forward self X = Raise AssertionError)
    /\ (ndim X = 0 -> PMA.forward self X = Raise IndexError).
Proof.
  intros E k kw n self n' X Hinit.
  apply PMA_init_inv in Hinit. destruct Hinit as (Hwf & _ & _ & HS).
  split; [|split].
  - intros out H. unfold PMA.forward in H.
    destruct (TensorOps.size X 0) as [b|]; [|discriminate]. cbn [bind] in H.
    rewrite (repeat_over_batch (PMA.S self) b _ _ HS) in H. cbn [bind] in H.
    unfold MAB.forward in H.
    destruct (nn.MultiheadAttention.forward _ _ X X) as [r|] eqn:Hatt;
      [|discriminate].
    apply MHA_forward_inv_shapes in Hatt.
    destruct Hwf as (HE & _). rewrite HE in Hatt.
    destruct Hatt as [(B & L & B' & S & _ & HX)|(L & S & Hq & _)].
    + now exists B', S.
    + discriminate.
  - intros HX. unfold PMA.forward.
    destruct X as [[|a [|b [|c s]]] v]; try discriminate.
    change (TensorOps.size (Tensor [a; b] v) 0) with (@Ok nat a).
    cbn [bind].
    rewrite (repeat_over_batch (PMA.S self) a _ _ HS). cbn [bind].
    unfold MAB.forward.
    now rewrite MHA_forward_batched_query_unbatched_key.
  - intros HX. unfold PMA.forward, TensorOps.size. now rewrite HX.
Qed.

Lemma PMA_forward_accepts_only_batched_input_witness :
  PMA.init 10 4 example_kwargs 0 = Ok (example_PMA, 6)
  /\ ndim (Tensor [30; 10] (EInput "X"%string)) = 2
  /\ PMA.forward example_PMA (Tensor [30; 10] (EInput "X"%string))
     = Raise AssertionError.
Proof.
  split; [reflexivity|split; [reflexivity|]].
  exact (proj1 (proj2 (PMA_forward_accepts_only_batched_input
                         10%Z 4%Z example_kwargs 0 example_PMA 6
                         (Tensor [30; 10] (EInput "X"%string)) eq_refl))
           eq_refl).
Defined.

(* ------------------------------------------------------------------ *)
(** * Further properties of Attention *)

Lemma matmul_3d (a b : tensor) (B n k p : nat) :
  shape a = [B; n; k] -> shape b = [B; k; p] ->
  torch.matmul a b = Ok (Tensor [B; n; p] (EMatmul (val a) (val b))).
Proof.
  intros Ha Hb. unfold torch.matmul, ndim. rewrite Ha, Hb.
  cbn -[broadcast_shapes]. rewrite Nat.eqb_refl, broadcast_shapes_same.
  reflexivity.
Qed.

(** With softmax over the last axis as its normalizer, [Attention]
    computes [softmax(Q.K^T / sqrt(d)).V], [d] being the trailing
    dimension of [Q]: on matrices [Q : (n, d)], [K : (m, d)],
    [V : (m, dv)] the result has shape [(n, dv)], and on batches of such
    matrices the batch dimension is kept. *)
Theorem Attention_forward_with_softmax_over_last_axis :
  (forall Q K V (n m d dv : nat),
      shape Q = [n; d] -> shape K = [m; d] -> shape V = [m; dv] ->
      Attention.forward (Attention.init (Some softmax_last_axis)) Q K V
      = Ok (Tensor [n; dv]
              (EMatmul
                 (ESoftmax 1
                    (EDivSqrt (EMatmul (val Q) (ETranspose 0 1 (val K))) d))
                 (val V))))
  /\ (forall Q K V (B n m d dv : nat),
        shape Q = [B; n; d] -> shape K = [B; m; d] -> shape V = [B; m; dv] ->
        Attention.forward (Attention.init (Some softmax_last_axis)) Q K V
        = Ok (Tensor [B; n; dv]
                (EMatmul
                   (ESoftmax 2
                      (EDivSqrt (EMatmul (val Q) (ETranspose 1 2 (val K))) d))
                   (val V)))).
Proof.
  split; [exact Attention_forward_softmax_last_axis|].
  intros Q K V B n m d dv HQ HK HV. unfold Attention.forward.
  assert (Hsz : TensorOps.size Q (-1) = Ok d).
  { unfold TensorOps.size, ndim. rewrite HQ. reflexivity. }
  assert (Htr : TensorOps.transpose K (-2) (-1)
                = Ok (Tensor [B; d; m] (ETranspose 1 2 (val K)))).
  { unfold TensorOps.transpose, ndim. rewrite HK. reflexivity. }
  rewrite Hsz, Htr. cbn [bind].
  erewrite matmul_3d by (first [exact HQ|reflexivity]).
  cbn [bind TensorOps.div_sqrt shape val Attention.init
       Attention.activation_function].
  change (softmax_last_axis
            (Tensor [B; n; m]
               (EDivSqrt (EMatmul (val Q) (ETranspose 1 2 (val K))) d)))
    with (@Ok tensor
            (Tensor [B; n; m]
               (ESoftmax 2
                  (EDivSqrt (EMatmul (val Q) (ETranspose 1 2 (val K))) d)))).
  cbn [bind]. erewrite matmul_3d by (first [exact HV|reflexivity]).
  reflexivity.
Qed.

Lemma Attention_forward_with_softmax_over_last_axis_witness :
  shape (Tensor [16; 5; 4] (EInput "Q"%string)) = [16; 5; 4]
  /\ shape (Tensor [16; 7; 4] (EInput "K"%string)) = [16; 7; 4]
  /\ shape (Tensor [16; 7; 3] (EInput "V"%string)) = [16; 7; 3]
  /\ Attention.forward (Attention.init (Some softmax_last_axis))
       (Tensor [16; 5; 4] (EInput "Q"%string))
       (Tensor [16; 7; 4] (EInput "K"%string))
       (Tensor [16; 7; 3] (EInput "V"%string))
     = Ok (Tensor [16; 5; 3]
             (EMatmul
                (ESoftmax 2
                   (EDivSqrt
                      (EMatmul (EInput "Q"%string)
                         (ETranspose 1 2 (EInput "K"%string))) 4))
                (EInput "V"%string))).
Proof.
  split; [reflexivity|split; [reflexivity|split; [reflexivity|]]].
  exact (proj2 Attention_forward_with_softmax_over_last_axis
           (Tensor [16; 5; 4] (EInput "Q"%string))
           (Tensor [16; 7; 4] (EInput "K"%string))
           (Tensor [16; 7; 3] (EInput "V"%string))
           16 5 7 4 3 eq_refl eq_refl eq_refl).
Defined.

(** Queries and keys of different feature dimensions make [Attention]
    raise [RuntimeError] at the product of [Q] with the transposed [K],
    before the normalizer is called: the outcome is the same for every
    normalizer, the default included. *)
Theorem Attention_forward_rejects_mismatched_features :
  forall (f : option callable) Q K V (n m d d' : nat),
    shape Q = [n; d] -> shape K = [m; d'] -> d <> d' ->
    Attention.forward (Attention.init f) Q K V = Raise RuntimeError.
Proof.
  intros f Q K V n m d d' HQ HK Hd. unfold Attention.forward.
  rewrite (size_last_2d Q n d HQ). cbn [bind].
  rewrite (transpose_last_two_2d K m d' HK). cbn [bind].
  unfold torch.matmul, ndim. rewrite HQ. cbn.
  apply Nat.eqb_neq in Hd. now rewrite Hd.
Qed.

Lemma Attention_forward_rejects_mismatched_features_witness :
  shape (Tensor [5; 4] (EInput "Q"%string)) = [5; 4]
  /\ shape (Tensor [7; 6] (EInput "K"%string)) = [7; 6]
  /\ 4 <> 6
  /\ Attention.forward (Attention.init (Some softmax_last_axis))
       (Tensor [5; 4] (EInput "Q"%string))
       (Tensor [7; 6] (EInput "K"%string))
       (Tensor [7; 3] (EInput "V"%string))
     = Raise RuntimeError.
Proof.
  assert (H : 4 <> 6) by lia.
  split; [reflexivity|split; [reflexivity|split; [exact H|]]].
  exact (Attention_forward_rejects_mismatched_features
           (Some softmax_last_axis)
           (Tensor [5; 4] (EInput "Q"%string))
           (Tensor [7; 6] (EInput "K"%string))
           (Tensor [7; 3] (EInput "V"%string))
           5 7 4 6 eq_refl eq_refl H).
Defined.
